(** * GenSyn Playground: the simulated job pipeline of the page component

    A shallow embedding of [Home] (the page component): its two static
    catalogs, the component state, the handlers [addLog], [trainModel],
    [processJob], [startSimulation], [togglePause], [shareEarnings], and the
    timer callbacks they chain.

    JavaScript numbers are IEEE-754 binary64 values; they are modelled with
    the executable specification [spec_float] (precision 53, emax 1024), so
    that [job.reward * selectedGpu.speed] and [(i / steps) * 100] round the
    way they do in the browser.  Loop counters and array indices, which only
    ever hold small integers, are kept in [Z] and converted where the source
    mixes them with fractional values. *)

From Stdlib Require Import ZArith List String Ascii Bool Lia.
From Stdlib Require Import Floats.SpecFloat.
Import ListNotations.

Local Open Scope string_scope.
Local Open Scope list_scope.
Local Open Scope Z_scope.

(** Concatenation of strings, as the template literals of the source do. *)
Infix "+++" := String.append (right associativity, at level 60).

(** ** Numbers *)

Module Num.

Definition prec : Z := 53.
Definition emax : Z := 1024.

Definition number := spec_float.

Definition mul : number -> number -> number := SFmul prec emax.
Definition add : number -> number -> number := SFadd prec emax.
Definition sub : number -> number -> number := SFsub prec emax.
Definition div : number -> number -> number := SFdiv prec emax.
Definition leb : number -> number -> bool := SFleb.
Definition ltb : number -> number -> bool := SFltb.
Definition eqb : number -> number -> bool := SFeqb.

(** An integer as a number (exact below 2^53, rounded to nearest above). *)
Definition ofZ (z : Z) : number := binary_normalize prec emax z 0 false.

(** The decimal literal [m / 10^k] of the source text: the binary64 value
    nearest to it.  Both [m] and [10^k] are exact for the literals of this
    program, so one correctly rounded division gives that value. *)
Definition lit (m : Z) (k : Z) : number := div (ofZ m) (ofZ (10 ^ k)).

(** ToIntegerOrInfinity restricted to finite values: truncation toward
    zero.  NaN maps to 0 as in the standard; the infinities, which no
    expression of this program produces, are mapped to 0 as well. *)
Definition truncZ (x : number) : Z :=
  match x with
  | S754_finite s m e =>
      let a := if 0 <=? e then Z.pos m * 2 ^ e else Z.pos m / 2 ^ (- e) in
      if s then - a else a
  | _ => 0
  end.

(** [x.toFixed(d)] for finite [x] of magnitude below 1e21: the integer [n]
    with [n / 10^d] nearest to [x], the larger one on a tie, printed with
    [d] fractional digits.  From 1e21 on the runtime prints the number in
    exponent notation instead; that range is not modelled, and no value of
    the page comes near it. *)
Definition scaled (d : Z) (m : positive) (e : Z) : Z :=
  let p := 10 ^ d in
  if 0 <=? e then Z.pos m * 2 ^ e * p
  else (2 * Z.pos m * p + 2 ^ (- e)) / (2 * 2 ^ (- e)).

Fixpoint digitsFuel (fuel : nat) (n : Z) (acc : string) : string :=
  match fuel with
  | O => acc
  | S f =>
      let c := ascii_of_nat (48 + Z.to_nat (n mod 10)) in
      if n <? 10 then String c acc
      else digitsFuel f (n / 10) (String c acc)
  end.

(** Decimal digits of a non-negative integer. *)
Definition digits (n : Z) : string :=
  digitsFuel (S (Z.to_nat (Z.log2 n))) n EmptyString.

Definition showZ (z : Z) : string :=
  if z <? 0 then "-" +++ digits (- z) else digits z.

Fixpoint zeros (k : nat) : string :=
  match k with O => EmptyString | S k' => String "0" (zeros k') end.

Definition padLeft (w : nat) (s : string) : string :=
  zeros (w - String.length s) +++ s.

Definition fixedDigits (d : Z) (n : Z) : string :=
  let p := 10 ^ d in
  if d =? 0 then digits n
  else digits (n / p) +++ "." +++ padLeft (Z.to_nat d) (digits (n mod p)).

Definition toFixed (d : Z) (x : number) : string :=
  match x with
  | S754_zero _ => fixedDigits d 0
  | S754_infinity s => if s then "-Infinity" else "Infinity"
  | S754_nan => "NaN"
  | S754_finite s m e =>
      (if s then "-" else EmptyString) +++ fixedDigits d (scaled d m e)
  end.

End Num.

Abbreviation number := Num.number.

(** ** Small pieces of the JavaScript runtime *)

(** [Array.prototype.slice(start, end)]: relative indices are clamped to the
    array and an end at or before the start gives the empty array. *)
Definition slice {A : Type} (l : list A) (start final : Z) : list A :=
  let len := Z.of_nat (List.length l) in
  let k := if start <? 0 then Z.max (len + start) 0 else Z.min start len in
  let f := if final <? 0 then Z.max (len + final) 0 else Z.min final len in
  firstn (Z.to_nat (f - k)) (skipn (Z.to_nat k) l).

Definition upperAscii (c : ascii) : ascii :=
  let n := nat_of_ascii c in
  if (Nat.leb 97 n && Nat.leb n 122)%bool then ascii_of_nat (n - 32) else c.

Fixpoint toUpperCase (s : string) : string :=
  match s with
  | EmptyString => EmptyString
  | String c r => String (upperAscii c) (toUpperCase r)
  end.

(** ** Data model *)

Module Gpu.
Record t := mk { name : string; power : Z; speed : number }.
End Gpu.

Module Job.
Record t := mk { id : Z; name : string; duration : Z; reward : number }.
End Job.

Module Log.
(** The declared type of [type] is the union of "info", "success" and
    "bid"; at run time it is whatever string the caller passed. *)
Record entry := mk { time : string; msg : string; type : string }.
End Log.

Definition rtx4090 : Gpu.t := Gpu.mk "RTX 4090" 450 (Num.lit 9 1).
Definition h100 : Gpu.t := Gpu.mk "H100" 700 (Num.lit 12 1).
Definition a100 : Gpu.t := Gpu.mk "A100" 400 (Num.lit 8 1).
Definition rtx3090 : Gpu.t := Gpu.mk "RTX 3090" 350 (Num.lit 7 1).
Definition m2MacBook : Gpu.t := Gpu.mk "M2 MacBook" 30 (Num.lit 3 1).

Definition gpus : list Gpu.t := [rtx4090; h100; a100; rtx3090; m2MacBook].

Definition resnetJob : Job.t :=
  Job.mk 1 "Train ResNet-18 on CIFAR-10" 5000 (Num.lit 12 1).
Definition llamaJob : Job.t :=
  Job.mk 2 "Fine-tune Llama-7B" 8000 (Num.lit 25 1).
Definition diffusionJob : Job.t :=
  Job.mk 3 "Stable Diffusion Proof" 3000 (Num.lit 8 1).
Definition gpt2Job : Job.t :=
  Job.mk 4 "GPT-2 Scratch Train" 6000 (Num.lit 18 1).

Definition jobs : list Job.t := [resnetJob; llamaJob; diffusionJob; gpt2Job].

(** The model built by [initModel]: two dense layers, compiled with an
    optimizer and a loss. *)
Record LayersModel := mkModel
  { layers : list (Z * string); optimizer : string; lossName : string }.

Definition sequentialModel : LayersModel :=
  mkModel [(10, "relu"); (1, "sigmoid")] "adam" "binaryCrossentropy".

(** The object [tf.sequential] returns belongs to the tensor library, not
    to the repository.  What the page depends on is the set of methods such
    an object has: it is trained through [fit], [fitDataset] or
    [trainOnBatch], and it has no method named [train]. *)
Definition layersModelMethods : list string :=
  [ "add"; "pop"; "compile"; "fit"; "fitDataset"; "trainOnBatch";
    "evaluate"; "evaluateDataset"; "predict"; "predictOnBatch";
    "summary"; "save"; "getLayer"; "getWeights"; "setWeights"; "dispose" ].

Definition hasMethod (name : string) : bool :=
  existsb (String.eqb name) layersModelMethods.

(** The component state: one field per [useState] cell. *)
Record State := mkState
  { selectedGpu : Gpu.t;
    logs : list Log.entry;
    isRunning : bool;
    earnings : number;
    progress : number;
    jobQueue : list Job.t;
    currentJob : nat;
    showConfetti : bool;
    isPaused : bool;
    model : option LayersModel }.

(** A render binds every cell to a constant; the functions defined during
    that render close over those constants.  A closure environment is thus a
    snapshot of the state, and stays what it was when the state changes. *)
Definition Env := State.

(** The initial cells; [selectedGpu] starts as [gpus[0]] and the queue as
    the first two catalog jobs. *)
Definition initialState : State :=
  mkState (hd rtx4090 gpus) [] false (Num.ofZ 0) (Num.ofZ 0) (slice jobs 0 2) 0%nat
          false false None.

(** *** State setters.  Updates queued in one handler are applied in order,
    so a handler is the composition of its setter calls. *)

Definition setSelectedGpu (g : Gpu.t) (s : State) : State :=
  mkState g (logs s) (isRunning s) (earnings s) (progress s) (jobQueue s)
          (currentJob s) (showConfetti s) (isPaused s) (model s).

Definition setLogs (f : list Log.entry -> list Log.entry) (s : State) : State :=
  mkState (selectedGpu s) (f (logs s)) (isRunning s) (earnings s) (progress s)
          (jobQueue s) (currentJob s) (showConfetti s) (isPaused s) (model s).

Definition setIsRunning (b : bool) (s : State) : State :=
  mkState (selectedGpu s) (logs s) b (earnings s) (progress s) (jobQueue s)
          (currentJob s) (showConfetti s) (isPaused s) (model s).

Definition setEarnings (f : number -> number) (s : State) : State :=
  mkState (selectedGpu s) (logs s) (isRunning s) (f (earnings s)) (progress s)
          (jobQueue s) (currentJob s) (showConfetti s) (isPaused s) (model s).

Definition setProgress (p : number) (s : State) : State :=
  mkState (selectedGpu s) (logs s) (isRunning s) (earnings s) p (jobQueue s)
          (currentJob s) (showConfetti s) (isPaused s) (model s).

Definition setJobQueue (f : list Job.t -> list Job.t) (s : State) : State :=
  mkState (selectedGpu s) (logs s) (isRunning s) (earnings s) (progress s)
          (f (jobQueue s)) (currentJob s) (showConfetti s) (isPaused s)
          (model s).

Definition setCurrentJob (f : nat -> nat) (s : State) : State :=
  mkState (selectedGpu s) (logs s) (isRunning s) (earnings s) (progress s)
          (jobQueue s) (f (currentJob s)) (showConfetti s) (isPaused s)
          (model s).

Definition setShowConfetti (b : bool) (s : State) : State :=
  mkState (selectedGpu s) (logs s) (isRunning s) (earnings s) (progress s)
          (jobQueue s) (currentJob s) b (isPaused s) (model s).

Definition setIsPaused (b : bool) (s : State) : State :=
  mkState (selectedGpu s) (logs s) (isRunning s) (earnings s) (progress s)
          (jobQueue s) (currentJob s) (showConfetti s) b (model s).

Definition setModel (m : option LayersModel) (s : State) : State :=
  mkState (selectedGpu s) (logs s) (isRunning s) (earnings s) (progress s)
          (jobQueue s) (currentJob s) (showConfetti s) (isPaused s) m.

(** ** The world around the component

    Besides the state cells the handlers act on the timer queue, the audio
    output and the clipboard.  A callback handed to [setTimer], or the rest
    of an [async] function after an [await], is represented by a [Task]
    carrying what the closure captured: the environment of the render that
    created it and, for the per-job callbacks, the binding [job]. *)

Inductive Wake :=
| Timer (ms : Z)      (* setTimer(..., ms) *)
| TrainResolved         (* the promise of model.train(...) *)
| Mounted.              (* useEffect(..., []) after the first render *)

Inductive Task :=
| InitModel
| RefillQueue
| BeginTraining (env : Env) (job : Job.t)
| AfterPauseWait (env : Env) (job : Job.t) (steps i : Z)
| AfterTrain (env : Env) (job : Job.t) (steps i : Z)
| AfterStepWait (env : Env) (job : Job.t) (steps i : Z)
| SettleReward (env : Env) (job : Job.t)
| HideConfetti.

Record World := mkWorld
  { store : State;
    pending : list (Wake * Task);
    audio : list Z;                 (* oscillator frequencies played *)
    clipboard : option string;
    shared : list string }.

(** What the environment supplies when a task runs: the two results of
    [Math.random()] and the loss reported by the training call. *)
Record Oracle := mkOracle
  { random1 : number; random2 : number; loss : option number }.

Definition onStore (f : State -> State) (w : World) : World :=
  mkWorld (f (store w)) (pending w) (audio w) (clipboard w) (shared w).

Definition defer (k : Wake) (t : Task) (w : World) : World :=
  mkWorld (store w) (pending w ++ [(k, t)]) (audio w) (clipboard w) (shared w).

Definition writeClipboard (text : string) (w : World) : World :=
  mkWorld (store w) (pending w) (audio w) (Some text) (shared w).

Definition nativeShare (text : string) (w : World) : World :=
  mkWorld (store w) (pending w) (audio w) (clipboard w) (shared w ++ [text]).

(** Statements of a handler in sequence. *)
Notation "f >> g" := (fun w : World => g (f w))
  (at level 61, left associativity).

(** ** Handlers *)

Definition addLog (now msg type : string) : World -> World :=
  onStore (setLogs (fun prev =>
    prev ++ [Log.mk now ("[" +++ toUpperCase type +++ "] " +++ msg) type])).

Definition playSound (type : string) (w : World) : World :=
  let freq := if String.eqb type "earn" then 800
              else if String.eqb type "bid" then 600 else 400 in
  mkWorld (store w) (pending w) (audio w ++ [freq]) (clipboard w) (shared w).

(** [const acc = 50 + (steps - i) * 5] *)
Definition acc (steps i : Z) : number :=
  Num.add (Num.ofZ 50) (Num.mul (Num.sub (Num.ofZ steps) (Num.ofZ i)) (Num.ofZ 5)).

(** The argument of [setProgress]: [(i / steps) * 100]. *)
Definition progressAt (steps i : Z) : number :=
  Num.mul (Num.div (Num.ofZ i) (Num.ofZ steps)) (Num.ofZ 100).

Definition showLoss (l : option number) : string :=
  match l with
  | Some x => Num.toFixed 3 x
  | None => "undefined"
  end.

Definition stepMessage (steps i : Z) (l : option number) : string :=
  "Step " +++ Num.showZ (i + 1) +++ "/" +++ Num.showZ steps +++ " â†’ Loss: "
  +++ showLoss l +++ ", Acc: " +++ Num.toFixed 1 (acc steps i) +++ "%".

Section Handlers.

(** The wall-clock reading [new Date().toLocaleTimeString()] of the
    synchronous block being run. *)
Variable now : string.

(** The statements of the 1000 ms callback after [await trainModel(10)]. *)
Definition generateProof (env : Env) (job : Job.t) : World -> World :=
  addLog now "Generating proof..." "info"
  >> defer (Timer 1500) (SettleReward env job).

(** The head of the [for] loop of [trainModel] at index [i]: leave the
    loop when [i < steps] fails, wait 100 ms when the captured [isPaused]
    is set, call [model.train(...)] otherwise.  Leaving the loop ends
    [trainModel], whose caller then goes on with [generateProof].

    The call [model.train(...)] returns a promise to await only when the
    model has such a method.  When it has none the call raises a TypeError:
    [trainModel] rejects, the callback awaiting it rejects with it, and
    neither arms anything further; the state is as it was. *)
Definition loopHead (env : Env) (job : Job.t) (steps i : Z) : World -> World :=
  if i <? steps then
    if isPaused env then defer (Timer 100) (AfterPauseWait env job steps i)
    else if hasMethod "train"
         then defer TrainResolved (AfterTrain env job steps i)
         else fun w => w
  else generateProof env job.

(** The tensors [xs] and [ys] and their disposal are left out; the loss
    a training call would report comes from the oracle. *)
Definition trainModel (env : Env) (job : Job.t) (steps : Z) : World -> World :=
  match model env with
  | None => generateProof env job            (* if (!model) return; *)
  | Some _ => loopHead env job steps 0
  end.

(** The body of the loop after the training call has resolved. *)
Definition afterTrain (env : Env) (job : Job.t) (steps i : Z)
           (l : option number) : World -> World :=
  addLog now (stepMessage steps i l) "train"
  >> onStore (setProgress (progressAt steps i))
  >> defer (Timer (Num.truncZ (Num.div (Num.ofZ 300) (Gpu.speed (selectedGpu env)))))
           (AfterStepWait env job steps i).

(** The 1500 ms callback of [processJob]. *)
Definition settle (env : Env) (job : Job.t) : World -> World :=
  let reward := Num.mul (Job.reward job) (Gpu.speed (selectedGpu env)) in
  onStore (setEarnings (fun prev => Num.add prev reward))
  >> addLog now ("Proof accepted! +" +++ Num.toFixed 2 reward +++ " $SY earned ðŸŽ‰") "success"
  >> playSound "earn"
  >> onStore (setShowConfetti true)
  >> defer (Timer 3000) HideConfetti
  >> onStore (setCurrentJob S)
  >> onStore (setProgress (Num.ofZ 0)).

Definition processJob (env : Env) : World -> World :=
  if (List.length (jobQueue env) <=? currentJob env)%nat then
    addLog now "Queue empty. Fetching more jobs..." "info"
    >> defer (Timer 2000) RefillQueue
  else
    match nth_error (jobQueue env) (currentJob env) with
    | Some job =>
        addLog now ("Processing job " +++ Num.showZ (Z.of_nat (currentJob env) + 1)
                    +++ ": " +++ Job.name job) "bid"
        >> playSound "bid"
        >> defer (Timer 1000) (BeginTraining env job)
    | None => fun w => w        (* excluded by the test above *)
    end.

Definition startSimulation (env : Env) : World -> World :=
  onStore (setIsRunning true)
  >> onStore (setEarnings (fun _ => Num.ofZ 0))
  >> onStore (setLogs (fun _ => []))
  >> onStore (setCurrentJob (fun _ => 0%nat))
  >> onStore (setProgress (Num.ofZ 0))
  >> addLog now ("Node started on " +++ Gpu.name (selectedGpu env) +++ " ("
                 +++ Num.showZ (Gpu.power (selectedGpu env)) +++ "W)") "info"
  >> processJob env.

Definition togglePause (env : Env) : World -> World :=
  onStore (setIsPaused (negb (isPaused env)))
  >> addLog now (if isPaused env then "Node resumed" else "Node paused") "info".

Definition shareEarnings (env : Env) (canShare : bool) : World -> World :=
  let text := "Just earned " +++ Num.toFixed 2 (earnings env)
              +++ " $SY running a GenSyn node in my browser! Try it: https://gensynplayground.vercel.app/ #GenSyn #dePIN" in
  if canShare then nativeShare text
  else writeClipboard text >> addLog now "Share text copied!" "info".

(** The updater of the refill timer:
    [prev => [...prev, ...jobs.slice(Math.random() * jobs.length,
                                     Math.random() * jobs.length + 1)]]. *)
Definition refill (o : Oracle) (prev : list Job.t) : list Job.t :=
  let len := Num.ofZ (Z.of_nat (List.length jobs)) in
  prev ++ slice jobs (Num.truncZ (Num.mul (random1 o) len))
                     (Num.truncZ (Num.add (Num.mul (random2 o) len) (Num.ofZ 1))).

(** Running a task that has become due. *)
Definition runTask (o : Oracle) (t : Task) : World -> World :=
  match t with
  | InitModel => onStore (setModel (Some sequentialModel))
  | RefillQueue => onStore (setJobQueue (refill o))
  | BeginTraining env job =>
      addLog now "Training model..." "info"
      >> playSound "train"
      >> trainModel env job 10
  | AfterPauseWait env job steps i =>
      loopHead env job steps ((i - 1) + 1)       (* i--; continue; i++ *)
  | AfterTrain env job steps i => afterTrain env job steps i (loss o)
  | AfterStepWait env job steps i => loopHead env job steps (i + 1)
  | SettleReward env job => settle env job
  | HideConfetti => onStore (setShowConfetti false)
  end.

End Handlers.

(** ** The page as a transition system

    User events run the handlers of the latest render, whose environment is
    the current state; the controls are enabled as the markup says (the
    selector and the start button while not running, the others while
    running).  A pending task may run at any time: delays are recorded but
    not used to order tasks, which over-approximates every real schedule. *)

Inductive Event :=
| Select (value : string)      (* onChange of the device selector *)
| Start                        (* the start button *)
| Pause                        (* the pause / resume button *)
| Share (canShare : bool)      (* the share button; is navigator.share there *)
| Sound                        (* the sound button *)
| Fire (k : nat) (o : Oracle). (* the k-th pending task becomes due *)

Definition initialWorld : World :=
  mkWorld initialState [(Mounted, InitModel)] [] None [].

Fixpoint removeNth {A : Type} (k : nat) (l : list A) : list A :=
  match l, k with
  | [], _ => []
  | _ :: r, O => r
  | x :: r, S k' => x :: removeNth k' r
  end.

Definition unschedule (k : nat) (w : World) : World :=
  mkWorld (store w) (removeNth k (pending w)) (audio w) (clipboard w) (shared w).

(** [Math.random()] returns a value in [0, 1). *)
Definition validRandom (r : number) : bool :=
  (Num.leb (Num.ofZ 0) r && Num.ltb r (Num.ofZ 1))%bool.

Definition validOracle (o : Oracle) : bool :=
  (validRandom (random1 o) && validRandom (random2 o))%bool.

Definition step (now : string) (ev : Event) (w : World) : option World :=
  let env := store w in
  match ev with
  | Select value =>
      if isRunning env then None
      else match find (fun g => String.eqb (Gpu.name g) value) gpus with
           | Some g => Some (onStore (setSelectedGpu g) w)
           | None => None
           end
  | Start => if isRunning env then None else Some (startSimulation now env w)
  | Pause => if isRunning env then Some (togglePause now env w) else None
  | Share canShare =>
      if isRunning env then Some (shareEarnings now env canShare w) else None
  | Sound => if isRunning env then Some (playSound "earn" w) else None
  | Fire k o =>
      match nth_error (pending w) k with
      | Some (_, t) =>
          if validOracle o then Some (runTask now o t (unschedule k w)) else None
      | None => None
      end
  end.

(** Worlds reachable from the freshly loaded page. *)
Inductive reachable : World -> Prop :=
| reach_init : reachable initialWorld
| reach_step : forall w now ev w',
    reachable w -> step now ev w = Some w' -> reachable w'.

(** Running a whole script of timed events. *)
Fixpoint run (script : list (string * Event)) (w : World) : option World :=
  match script with
  | [] => Some w
  | (now, ev) :: rest =>
      match step now ev w with
      | Some w' => run rest w'
      | None => None
      end
  end.

(** ** Reward settlement *)

(** C1: for every device and every job, the reward settled by the 1500 ms
    callback is [job.reward * selectedGpu.speed] (the device being the one
    the callback captured), the accumulated total grows by exactly that
    number, and the success entry shows it with two decimals. *)
Theorem settle_adds_reward :
  forall (now : string) (o : Oracle) (env : Env) (job : Job.t) (w : World),
    let reward := Num.mul (Job.reward job) (Gpu.speed (selectedGpu env)) in
    let w' := runTask now o (SettleReward env job) w in
    earnings (store w') = Num.add (earnings (store w)) reward
    /\ logs (store w') =
       logs (store w) ++
       [Log.mk now ("[SUCCESS] Proof accepted! +" +++ Num.toFixed 2 reward
                    +++ " $SY earned ðŸŽ‰") "success"]
    /\ currentJob (store w') = S (currentJob (store w))
    /\ progress (store w') = Num.ofZ 0.
Proof.
  intros now o env job w reward w'. subst reward w'.
  split; [reflexivity | ]. split; [reflexivity | ]. split; reflexivity.
Qed.

(** C8: the job "Stable Diffusion Proof" (reward 0.8) settled on the device
    "M2 MacBook" (speed 0.3) pays the binary64 product of the two literals,
    which is the number the literal 0.24 denotes; added to a zero total it
    gives that same number, and the entry logged reads "+0.24". *)
Theorem m2_stable_diffusion_reward :
  forall (now : string) (o : Oracle) (env : Env) (w : World),
    let env' := setSelectedGpu m2MacBook env in
    let w0 := onStore (setEarnings (fun _ => Num.ofZ 0)) w in
    let w' := runTask now o (SettleReward env' diffusionJob) w0 in
    find (fun g => String.eqb (Gpu.name g) "M2 MacBook") gpus = Some m2MacBook
    /\ find (fun j => String.eqb (Job.name j) "Stable Diffusion Proof") jobs
       = Some diffusionJob
    /\ Gpu.speed m2MacBook = Num.lit 3 1
    /\ Job.reward diffusionJob = Num.lit 8 1
    /\ Num.mul (Job.reward diffusionJob) (Gpu.speed m2MacBook) = Num.lit 24 2
    /\ earnings (store w') = Num.lit 24 2
    /\ Num.toFixed 2 (Num.mul (Job.reward diffusionJob) (Gpu.speed m2MacBook))
       = "0.24".
Proof.
  intros now o env w env' w0 w'.
  assert (Hmul : Num.mul (Job.reward diffusionJob) (Gpu.speed m2MacBook)
                 = Num.lit 24 2) by (vm_compute; reflexivity).
  repeat split; try (vm_compute; reflexivity).
Qed.

(** ** The training loop *)

(** The entries logged by training steps. *)
Definition stepEntries (l : list Log.entry) : list Log.entry :=
  filter (fun e => String.eqb (Log.type e) "train") l.

Definition inRange (p : Num.number) : bool :=
  (Num.leb (Num.ofZ 0) p && Num.leb p (Num.ofZ 100))%bool.

Lemma progressAt_10 :
  map (progressAt 10) [0; 1; 2; 3; 4; 5; 6; 7; 8; 9]
  = map Num.ofZ [0; 10; 20; 30; 40; 50; 60; 70; 80; 90].
Proof. vm_compute. reflexivity. Qed.

Lemma acc_10 :
  map (acc 10) [0; 1; 2; 3; 4; 5; 6; 7; 8; 9]
  = map Num.ofZ [100; 95; 90; 85; 80; 75; 70; 65; 60; 55].
Proof. vm_compute. reflexivity. Qed.

Ltac index_cases i :=
  let H := fresh "Hcase" in
  assert (H : i = 0 \/ i = 1 \/ i = 2 \/ i = 3 \/ i = 4 \/ i = 5 \/ i = 6
              \/ i = 7 \/ i = 8 \/ i = 9) by lia;
  repeat (destruct H as [H | H]; [subst i | ]); [ .. | subst i].

(** What line 87 writes once a training call has resolved: the ratio of the
    zero-based index [i], not of the [i + 1] steps then completed; for the
    last of ten steps that is 90. *)
Lemma afterTrain_writes_index_ratio :
  forall (now : string) (env : Env) (job : Job.t) (steps i : Z)
         (l : option Num.number) (w : World),
    progress (store (afterTrain now env job steps i l w)) = progressAt steps i
    /\ progressAt 10 9 = Num.ofZ 90.
Proof. intros. split; [reflexivity | vm_compute; reflexivity]. Qed.

(** The progress written by a step never reaches 100 within the ten steps. *)
Lemma progress_below_100 :
  forall i : Z, 0 <= i < 10 ->
    inRange (progressAt 10 i) = true
    /\ Num.ltb (progressAt 10 i) (Num.ofZ 100) = true.
Proof.
  intros i Hi. index_cases i; vm_compute; split; reflexivity.
Qed.

(** What line 85 computes: [50 + (steps - i) * 5] falls as the index grows
    (100 for the first of ten steps, 55 for the last). *)
Lemma acc_falls_with_index :
  forall i j : Z, 0 <= i -> i < j -> j < 10 ->
    Num.ltb (acc 10 j) (acc 10 i) = true
    /\ Num.ltb (acc 10 i) (acc 10 j) = false.
Proof.
  intros i j H0 Hij Hj.
  index_cases i; index_cases j; try lia; vm_compute; split; reflexivity.
Qed.

(** ** Refilling the queue *)

(** With an exhausted queue [processJob] logs one entry and arms the 2000 ms
    refill timer, and nothing else. *)
Lemma processJob_exhausted :
  forall (now : string) (env : Env) (w : World),
    (List.length (jobQueue env) <= currentJob env)%nat ->
    processJob now env w =
    defer (Timer 2000) RefillQueue
          (addLog now "Queue empty. Fetching more jobs..." "info" w).
Proof.
  intros now env w H. unfold processJob.
  apply Nat.leb_le in H. rewrite H. reflexivity.
Qed.

Lemma In_firstn : forall (A : Type) (n : nat) (l : list A) (x : A),
  In x (firstn n l) -> In x l.
Proof.
  intros A n l x H. rewrite <- (firstn_skipn n l). apply in_or_app. now left.
Qed.

Lemma In_skipn : forall (A : Type) (n : nat) (l : list A) (x : A),
  In x (skipn n l) -> In x l.
Proof.
  intros A n l x H. rewrite <- (firstn_skipn n l). apply in_or_app. now right.
Qed.

(** What the refill appends is a run of consecutive catalog entries. *)
Lemma refill_from_catalog :
  forall (o : Oracle) (prev : list Job.t),
    exists extra, refill o prev = prev ++ extra /\ incl extra jobs.
Proof.
  intros o prev. unfold refill, slice.
  eexists. split; [reflexivity | ].
  intros x Hx. apply In_firstn in Hx. apply In_skipn in Hx. exact Hx.
Qed.

(** The two random draws 0.9 and 0.1. *)
Definition lateStartEarlyEnd (l : option Num.number) : Oracle :=
  mkOracle (Num.lit 9 1) (Num.lit 1 1) l.

(** The updater slices the catalog between two independent draws: for the
    draws 0.9 and 0.1 the slice is [jobs.slice(3, 1)], the empty array, and
    the queue is left as it was. *)
Lemma refill_can_append_nothing :
  forall (l : option Num.number) (prev : list Job.t),
    let o := lateStartEarlyEnd l in
    validOracle o = true
    /\ Num.truncZ (Num.mul (random1 o) (Num.ofZ 4)) = 3
    /\ Num.truncZ (Num.add (Num.mul (random2 o) (Num.ofZ 4)) (Num.ofZ 1)) = 1
    /\ refill o prev = prev.
Proof.
  intros l prev o. subst o. repeat split.
  change (refill (lateStartEarlyEnd l) prev) with (prev ++ []).
  apply app_nil_r.
Qed.

(** ** Starting a run *)

Lemma nth_error_below :
  forall (A : Type) (l : list A) (k : nat),
    (List.length l <=? k)%nat = false -> exists x, nth_error l k = Some x.
Proof.
  intros A l k H. apply Nat.leb_gt in H.
  destruct (nth_error l k) as [x | ] eqn:E; [now exists x | ].
  apply nth_error_None in E. lia.
Qed.

(** The entry that [startSimulation] logs itself. *)
Definition startedEntry (now : string) (env : Env) : Log.entry :=
  Log.mk now ("[INFO] Node started on " +++ Gpu.name (selectedGpu env) +++ " ("
              +++ Num.showZ (Gpu.power (selectedGpu env)) +++ "W)") "info".

(** The log after [processJob] is the log before plus one entry. *)
Lemma processJob_logs_one :
  forall (now : string) (env : Env) (w : World),
    exists e, logs (store (processJob now env w)) = logs (store w) ++ [e]
              /\ Log.time e = now
              /\ (Log.type e = "info" \/ Log.type e = "bid").
Proof.
  intros now env w. unfold processJob.
  destruct (List.length (jobQueue env) <=? currentJob env)%nat eqn:E.
  - eexists. split; [reflexivity | ]. split; [reflexivity | now left].
  - destruct (nth_error_below _ _ _ E) as [job Hjob]. rewrite Hjob.
    eexists. split; [reflexivity | ]. split; [reflexivity | now right].
Qed.

Lemma processJob_store :
  forall (now : string) (env : Env) (w : World),
    let s' := store (processJob now env w) in
    isRunning s' = isRunning (store w) /\ earnings s' = earnings (store w)
    /\ progress s' = progress (store w) /\ currentJob s' = currentJob (store w)
    /\ isPaused s' = isPaused (store w) /\ jobQueue s' = jobQueue (store w)
    /\ selectedGpu s' = selectedGpu (store w) /\ model s' = model (store w).
Proof.
  intros now env w. unfold processJob.
  destruct (List.length (jobQueue env) <=? currentJob env)%nat.
  - cbn. repeat split.
  - destruct (nth_error (jobQueue env) (currentJob env)); cbn; repeat split.
Qed.

(** What [startSimulation] leaves in the state. *)
Lemma startSimulation_store :
  forall (now : string) (env : Env) (w : World),
    let s' := store (startSimulation now env w) in
    (exists e, logs s' = [startedEntry now env; e])
    /\ earnings s' = Num.ofZ 0
    /\ progress s' = Num.ofZ 0
    /\ currentJob s' = 0%nat
    /\ isRunning s' = true
    /\ isPaused s' = isPaused (store w).
Proof.
  intros now env w s'. subst s'. unfold startSimulation.
  set (w0 := addLog now _ "info" _).
  destruct (processJob_logs_one now env w0) as [e [He _]].
  destruct (processJob_store now env w0) as (Hr & He' & Hp & Hc & Hq & _).
  rewrite He, Hr, He', Hp, Hc, Hq. subst w0.
  split; [exists e; reflexivity | repeat split].
Qed.

(** ** A missing model *)

(** C10: when the captured model is null, [trainModel] does nothing: the
    1000 ms callback logs its two own entries and no step entry, starts no
    training call, leaves the progress alone, and arms the 1500 ms
    settlement, which then pays the reward. *)
Theorem null_model_skips_training :
  forall (now now' : string) (o o' : Oracle) (env : Env) (job : Job.t) (w : World),
    model env = None ->
    let w1 := runTask now o (BeginTraining env job) w in
    let w2 := runTask now' o' (SettleReward env job) w1 in
    logs (store w1) =
      logs (store w) ++ [Log.mk now "[INFO] Training model..." "info";
                         Log.mk now "[INFO] Generating proof..." "info"]
    /\ stepEntries (logs (store w1)) = stepEntries (logs (store w))
    /\ progress (store w1) = progress (store w)
    /\ pending w1 = pending w ++ [(Timer 1500, SettleReward env job)]
    /\ earnings (store w2) =
       Num.add (earnings (store w))
               (Num.mul (Job.reward job) (Gpu.speed (selectedGpu env))).
Proof.
  intros now now' o o' env job w Hm w1 w2. subst w2.
  assert (Hw1 : w1 = generateProof now env job
                  (playSound "train" (addLog now "Training model..." "info" w))).
  { subst w1. cbn [runTask]. unfold trainModel. rewrite Hm. reflexivity. }
  rewrite Hw1. clear Hw1 w1.
  assert (Hlogs : logs (store (generateProof now env job
                    (playSound "train" (addLog now "Training model..." "info" w))))
                  = logs (store w) ++
                    [Log.mk now "[INFO] Training model..." "info";
                     Log.mk now "[INFO] Generating proof..." "info"]).
  { transitivity ((logs (store w) ++ [Log.mk now "[INFO] Training model..." "info"])
                  ++ [Log.mk now "[INFO] Generating proof..." "info"]);
      [reflexivity | ].
    rewrite <- app_assoc. reflexivity. }
  split; [exact Hlogs | ].
  split.
  { rewrite Hlogs. unfold stepEntries. rewrite filter_app. apply app_nil_r. }
  split; [reflexivity | ]. split; reflexivity.
Qed.

Lemma null_model_skips_training_witness :
  pending (runTask "10:00:01" (lateStartEarlyEnd None)
                   (BeginTraining initialState resnetJob) initialWorld)
  = pending initialWorld ++ [(Timer 1500, SettleReward initialState resnetJob)].
Proof.
  apply (null_model_skips_training "10:00:01" "10:00:02"
           (lateStartEarlyEnd None) (lateStartEarlyEnd None)
           initialState resnetJob initialWorld).
  reflexivity.
Defined.

(** ** Invariants of the reachable worlds *)

Lemma run_reachable :
  forall (script : list (string * Event)) (w w' : World),
    reachable w -> run script w = Some w' -> reachable w'.
Proof.
  induction script as [ | [now ev] rest IH]; intros w w' Hw Hrun; cbn in Hrun.
  - now inversion Hrun; subst.
  - destruct (step now ev w) as [w1 | ] eqn:E; [ | discriminate].
    apply (IH w1 w'); [ | assumption].
    now apply (reach_step w now ev w1).
Qed.

(** The tasks of the per-job pipeline, of which [processJob] arms the first. *)
Definition isPipeline (t : Task) : bool :=
  match t with
  | BeginTraining _ _ | AfterPauseWait _ _ _ _ | AfterTrain _ _ _ _
  | AfterStepWait _ _ _ _ | SettleReward _ _ => true
  | InitModel | RefillQueue | HideConfetti => false
  end.

Definition isBegin (t : Task) : bool :=
  match t with BeginTraining _ _ => true | _ => false end.

Definition taskEnv (t : Task) : option Env :=
  match t with
  | BeginTraining env _ | AfterPauseWait env _ _ _ | AfterTrain env _ _ _
  | AfterStepWait env _ _ _ | SettleReward env _ => Some env
  | InitModel | RefillQueue | HideConfetti => None
  end.

Definition countPipeline (l : list (Wake * Task)) : nat :=
  List.length (filter (fun p => isPipeline (snd p)) l).

(** The loop tasks of a run count the ten steps of [trainModel(10)]. *)
Definition loopOk (t : Task) : Prop :=
  match t with
  | AfterPauseWait _ _ steps i | AfterStepWait _ _ steps i => steps = 10 /\ 0 <= i
  | AfterTrain _ _ steps i => steps = 10 /\ 0 <= i < 10
  | _ => True
  end.

Record Inv (w : World) : Prop := mkInv
  { inv_range : inRange (progress (store w)) = true;
    inv_idle : isRunning (store w) = false ->
               countPipeline (pending w) = 0%nat /\ isPaused (store w) = false;
    inv_single : (countPipeline (pending w) <= 1)%nat;
    inv_begin : forall p, In p (pending w) -> isBegin (snd p) = true ->
                          progress (store w) = Num.ofZ 0;
    inv_loop : forall p, In p (pending w) -> loopOk (snd p);
    inv_env : forall p env, In p (pending w) -> taskEnv (snd p) = Some env ->
                            isPaused env = false
                            /\ selectedGpu env = selectedGpu (store w) }.

Lemma In_removeNth :
  forall (A : Type) (k : nat) (l : list A) (x : A),
    In x (removeNth k l) -> In x l.
Proof.
  intros A k l. revert k.
  induction l as [ | a l IH]; intros k x H; [destruct k; exact H | ].
  destruct k as [ | k]; cbn in H.
  - now right.
  - destruct H as [H | H]; [now left | right; eauto].
Qed.

Lemma countPipeline_app :
  forall l1 l2, countPipeline (l1 ++ l2) = (countPipeline l1 + countPipeline l2)%nat.
Proof.
  intros l1 l2. unfold countPipeline. now rewrite filter_app, length_app.
Qed.

Lemma countPipeline_removeNth :
  forall (k : nat) (l : list (Wake * Task)) (p : Wake * Task),
    nth_error l k = Some p ->
    countPipeline l =
    (countPipeline (removeNth k l) + (if isPipeline (snd p) then 1 else 0))%nat.
Proof.
  intros k l. revert k.
  induction l as [ | a l IH]; intros k p H; [destruct k; discriminate | ].
  destruct k as [ | k]; cbn in H.
  - inversion H; subst. unfold countPipeline. cbn.
    destruct (isPipeline (snd p)); cbn; lia.
  - specialize (IH k p H). unfold countPipeline in *. cbn.
    destruct (isPipeline (snd a)); cbn; lia.
Qed.

Lemma countPipeline_zero :
  forall (l : list (Wake * Task)) (p : Wake * Task),
    countPipeline l = 0%nat -> In p l -> isPipeline (snd p) = false.
Proof.
  intros l p H Hin. unfold countPipeline in H.
  destruct (isPipeline (snd p)) eqn:E; [ | reflexivity].
  assert (Hf : In p (filter (fun q => isPipeline (snd q)) l))
    by (apply filter_In; split; assumption).
  destruct (filter (fun q => isPipeline (snd q)) l); [destruct Hf | discriminate].
Qed.

Lemma pipeline_of_begin : forall t, isBegin t = true -> isPipeline t = true.
Proof. now destruct t. Qed.

Lemma pipeline_of_env : forall t env, taskEnv t = Some env -> isPipeline t = true.
Proof. destruct t; cbn; intros; congruence. Qed.

Lemma loopOk_of_idle : forall t, isPipeline t = false -> loopOk t.
Proof. destruct t; cbn; intros; (exact I || discriminate). Qed.

Lemma Inv_initial : Inv initialWorld.
Proof.
  constructor; cbn.
  - reflexivity.
  - now split.
  - lia.
  - intros p [<- | []]; discriminate.
  - intros p [<- | []]; exact I.
  - intros p env [<- | []]; discriminate.
Qed.

(** A step that only removes tasks and touches neither progress nor the
    running flag keeps the invariant. *)
Lemma Inv_shrink :
  forall w w' : World,
    Inv w ->
    (forall p, In p (pending w') -> In p (pending w)) ->
    (countPipeline (pending w') <= countPipeline (pending w))%nat ->
    progress (store w') = progress (store w) ->
    isRunning (store w') = isRunning (store w) ->
    (isRunning (store w) = false -> isPaused (store w') = false) ->
    (isRunning (store w) = true ->
     selectedGpu (store w') = selectedGpu (store w)) ->
    Inv w'.
Proof.
  intros w w' [Hr Hi Hs Hb Hl He] Hin Hc Hp Hrun Hpa Hg.
  constructor.
  - now rewrite Hp.
  - rewrite Hrun. intro H. destruct (Hi H) as [H0 _]. split; [lia | auto].
  - lia.
  - intros p Hp' Hbeg. rewrite Hp. eauto.
  - intros p Hp'. eauto.
  - intros p env Hp' Henv.
    destruct (He p env (Hin p Hp') Henv) as [H1 H2]. split; [assumption | ].
    destruct (isRunning (store w)) eqn:E.
    + now rewrite Hg.
    + destruct (Hi eq_refl) as [H0 _].
      pose proof (countPipeline_zero _ p H0 (Hin p Hp')) as Hz.
      rewrite (pipeline_of_env _ _ Henv) in Hz. discriminate.
Qed.

(** A pipeline task that runs is replaced by at most its successor. *)
Lemma Inv_pipeline_next :
  forall (w w' : World) (k : nat) (wk wk' : Wake) (t t' : Task),
    Inv w ->
    nth_error (pending w) k = Some (wk, t) ->
    isPipeline t = true ->
    pending w' = removeNth k (pending w) ++ [(wk', t')] ->
    isBegin t' = false ->
    loopOk t' ->
    (forall env, taskEnv t' = Some env -> taskEnv t = Some env) ->
    inRange (progress (store w')) = true ->
    isRunning (store w') = isRunning (store w) ->
    selectedGpu (store w') = selectedGpu (store w) ->
    Inv w'.
Proof.
  intros w w' k wk wk' t t' [Hr Hi Hs Hb Hl He] Hnth Hpipe Hpend Hbeg Hloop
         Henv Hrange Hrun Hgpu.
  pose proof (countPipeline_removeNth k _ _ Hnth) as Hc.
  cbn [snd] in Hc. rewrite Hpipe in Hc.
  assert (Hz : countPipeline (removeNth k (pending w)) = 0%nat) by lia.
  assert (Hon : isRunning (store w) = true).
  { destruct (isRunning (store w)); [reflexivity | ].
    destruct (Hi eq_refl) as [H0 _]. lia. }
  assert (Hold : forall p, In p (removeNth k (pending w)) ->
                           isPipeline (snd p) = false)
    by (intros p Hp; exact (countPipeline_zero _ p Hz Hp)).
  constructor.
  - assumption.
  - rewrite Hrun, Hon. discriminate.
  - rewrite Hpend, countPipeline_app, Hz. unfold countPipeline. cbn.
    destruct (isPipeline t'); cbn; lia.
  - intros p Hp Hpb. rewrite Hpend in Hp. apply in_app_or in Hp.
    destruct Hp as [Hp | [<- | []]].
    + pose proof (Hold p Hp) as Hf.
      rewrite (pipeline_of_begin _ Hpb) in Hf. discriminate.
    + cbn in Hpb. congruence.
  - intros p Hp. rewrite Hpend in Hp. apply in_app_or in Hp.
    destruct Hp as [Hp | [<- | []]].
    + apply Hl. now apply In_removeNth in Hp.
    + exact Hloop.
  - intros p env Hp Hpe. rewrite Hpend in Hp. apply in_app_or in Hp.
    destruct Hp as [Hp | [<- | []]].
    + pose proof (Hold p Hp) as Hf.
      rewrite (pipeline_of_env _ _ Hpe) in Hf. discriminate.
    + rewrite Hgpu. apply (He (wk, t) env).
      * eapply nth_error_In. exact Hnth.
      * apply Henv. exact Hpe.
Qed.

Lemma processJob_pending :
  forall (now : string) (env : Env) (w : World),
    exists wk t, pending (processJob now env w) = pending w ++ [(wk, t)]
                 /\ (t = RefillQueue \/ exists job, t = BeginTraining env job).
Proof.
  intros now env w. unfold processJob.
  destruct (List.length (jobQueue env) <=? currentJob env)%nat eqn:E.
  - do 2 eexists. split; [reflexivity | now left].
  - destruct (nth_error_below _ _ _ E) as [job Hjob]. rewrite Hjob.
    do 2 eexists. split; [reflexivity | right; now exists job].
Qed.

Lemma Inv_start :
  forall (now : string) (w : World),
    Inv w -> isRunning (store w) = false ->
    Inv (startSimulation now (store w) w).
Proof.
  intros now w [Hr Hi Hs Hb Hl He] Hoff.
  destruct (Hi Hoff) as [Hz Hunp].
  unfold startSimulation.
  set (w0 := addLog now _ "info" _).
  destruct (processJob_pending now (store w) w0) as (wk & t & Hpend & Ht).
  destruct (processJob_store now (store w) w0)
    as (Hrun & _ & Hprog & _ & _ & _ & Hgpu & _).
  assert (Hp0 : pending w0 = pending w) by reflexivity.
  rewrite Hp0 in Hpend.
  assert (Hold : forall p, In p (pending w) -> isPipeline (snd p) = false)
    by (intros p Hp; exact (countPipeline_zero _ p Hz Hp)).
  constructor.
  - rewrite Hprog. reflexivity.
  - rewrite Hrun. cbn. discriminate.
  - rewrite Hpend, countPipeline_app, Hz. unfold countPipeline. cbn.
    destruct (isPipeline t); cbn; lia.
  - intros p _ _. rewrite Hprog. reflexivity.
  - intros p Hp. rewrite Hpend in Hp. apply in_app_or in Hp.
    destruct Hp as [Hp | [<- | []]].
    + now apply Hl.
    + destruct Ht as [-> | [job ->]]; exact I.
  - intros p env Hp Hpe. rewrite Hpend in Hp. apply in_app_or in Hp.
    destruct Hp as [Hp | [<- | []]].
    + pose proof (Hold p Hp) as Hf.
      rewrite (pipeline_of_env _ _ Hpe) in Hf. discriminate.
    + destruct Ht as [-> | [job ->]]; cbn in Hpe; [discriminate | ].
      inversion Hpe; subst env. split; [assumption | ].
      rewrite Hgpu. reflexivity.
Qed.

(** The model object has no [train] method. *)
Lemma no_train_method : hasMethod "train" = false.
Proof. reflexivity. Qed.

(** The loop head either gives up (the training call raised) and leaves the
    world as it was, or arms one successor. *)
Lemma loopHead_pending :
  forall (now : string) (env : Env) (job : Job.t) (steps i : Z) (w : World),
    steps = 10 -> 0 <= i ->
    loopHead now env job steps i w = w
    \/ exists wk t,
         pending (loopHead now env job steps i w) = pending w ++ [(wk, t)]
         /\ isBegin t = false /\ loopOk t /\ taskEnv t = Some env
         /\ progress (store (loopHead now env job steps i w)) = progress (store w)
         /\ isRunning (store (loopHead now env job steps i w)) = isRunning (store w)
         /\ selectedGpu (store (loopHead now env job steps i w))
            = selectedGpu (store w).
Proof.
  intros now env job steps i w Hs Hi. unfold loopHead.
  destruct (i <? steps) eqn:E.
  - apply Z.ltb_lt in E.
    destruct (isPaused env); [ | destruct (hasMethod "train")].
    + right. do 2 eexists. split; [reflexivity | ]. cbn. repeat split; lia.
    + right. do 2 eexists. split; [reflexivity | ]. cbn. repeat split; lia.
    + now left.
  - right. do 2 eexists. split; [reflexivity | ]. cbn. repeat split.
Qed.

(** Running a task that is not part of the pipeline only changes a cell the
    invariant does not read. *)
Lemma Inv_idle_task :
  forall (f : State -> State) (k : nat) (w : World),
    Inv w ->
    (forall s, progress (f s) = progress s) ->
    (forall s, isRunning (f s) = isRunning s) ->
    (forall s, isPaused (f s) = isPaused s) ->
    (forall s, selectedGpu (f s) = selectedGpu s) ->
    Inv (onStore f (unschedule k w)).
Proof.
  intros f k w HI Hp Hr Hpa Hg.
  apply (Inv_shrink w); [exact HI | | | | | | ].
  - intros p Hin. exact (In_removeNth _ k _ p Hin).
  - cbn [pending onStore unschedule].
    destruct (nth_error (pending w) k) as [q | ] eqn:E.
    + pose proof (countPipeline_removeNth k _ _ E). lia.
    + assert (Hsame : removeNth k (pending w) = pending w).
      { clear HI. revert k E. induction (pending w) as [ | a l IH]; intros k E.
        - now destruct k.
        - destruct k as [ | k]; [discriminate | ]. cbn. f_equal. now apply IH. }
      rewrite Hsame. lia.
  - cbn [store onStore unschedule]. apply Hp.
  - cbn [store onStore unschedule]. apply Hr.
  - intro H. cbn [store onStore unschedule]. rewrite Hpa.
    exact (proj2 (inv_idle w HI H)).
  - intros _. cbn [store onStore unschedule]. apply Hg.
Qed.

(** A handler that leaves the task list, the progress, the running flag and
    the selected device alone keeps the invariant while the run is on. *)
Lemma Inv_running_frame :
  forall w w' : World,
    Inv w ->
    isRunning (store w) = true ->
    pending w' = pending w ->
    progress (store w') = progress (store w) ->
    isRunning (store w') = isRunning (store w) ->
    selectedGpu (store w') = selectedGpu (store w) ->
    Inv w'.
Proof.
  intros w w' HI Hon Hpend Hprog Hrun Hgpu.
  apply (Inv_shrink w); [exact HI | | | | | | ].
  - intros p Hin. now rewrite Hpend in Hin.
  - rewrite Hpend. lia.
  - exact Hprog.
  - exact Hrun.
  - intro H. congruence.
  - intros _. exact Hgpu.
Qed.

(** A pipeline task that runs and arms nothing. *)
Lemma Inv_pipeline_end :
  forall (w w' : World) (k : nat) (wk : Wake) (t : Task),
    Inv w ->
    nth_error (pending w) k = Some (wk, t) ->
    pending w' = removeNth k (pending w) ->
    progress (store w') = progress (store w) ->
    isRunning (store w') = isRunning (store w) ->
    isPaused (store w') = isPaused (store w) ->
    selectedGpu (store w') = selectedGpu (store w) ->
    Inv w'.
Proof.
  intros w w' k wk t HI Hnth Hpend Hprog Hrun Hpa Hgpu.
  apply (Inv_shrink w); [exact HI | | | | | | ].
  - intros p Hin. rewrite Hpend in Hin. exact (In_removeNth _ k _ p Hin).
  - rewrite Hpend. pose proof (countPipeline_removeNth k _ _ Hnth). lia.
  - exact Hprog.
  - exact Hrun.
  - intro H. rewrite Hpa. exact (proj2 (inv_idle w HI H)).
  - intros _. exact Hgpu.
Qed.

Lemma Inv_fire :
  forall (now : string) (o : Oracle) (k : nat) (wk : Wake) (t : Task) (w : World),
    Inv w -> nth_error (pending w) k = Some (wk, t) ->
    Inv (runTask now o t (unschedule k w)).
Proof.
  intros now o k wk t w HI Hnth.
  assert (Hin : In (wk, t) (pending w)) by (eapply nth_error_In; exact Hnth).
  pose proof (inv_loop w HI _ Hin) as Hloop. cbn [snd] in Hloop.
  destruct t as [ | | env job | env job steps i | env job steps i
                | env job steps i | env job | ]; cbn [runTask].
  - (* InitModel *)
    apply Inv_idle_task; [exact HI | | | | ]; intros s; reflexivity.
  - (* RefillQueue *)
    apply Inv_idle_task; [exact HI | | | | ]; intros s; reflexivity.
  - (* BeginTraining *)
    unfold trainModel.
    set (w0 := playSound "train" (addLog now "Training model..." "info"
                                         (unschedule k w))).
    assert (Hp0 : pending w0 = removeNth k (pending w)) by reflexivity.
    assert (Hprog : progress (store w0) = progress (store w)) by reflexivity.
    assert (Hrun0 : isRunning (store w0) = isRunning (store w)) by reflexivity.
    assert (Hgpu0 : selectedGpu (store w0) = selectedGpu (store w))
      by reflexivity.
    destruct (model env).
    + destruct (loopHead_pending now env job 10 0 w0 eq_refl (Z.le_refl 0))
        as [Hgone | (wk' & t' & Hpend & Hb & Hl & He & Hpr & Hrun & Hg)].
      * rewrite Hgone.
        apply (Inv_pipeline_end w w0 k wk (BeginTraining env job));
          try assumption; reflexivity.
      * rewrite Hp0 in Hpend.
        apply (Inv_pipeline_next w _ k wk wk' (BeginTraining env job) t');
          try assumption; try reflexivity.
        -- intros env' H. cbn. congruence.
        -- rewrite Hpr, Hprog. exact (inv_range w HI).
    + apply (Inv_pipeline_next w _ k wk (Timer 1500) (BeginTraining env job)
               (SettleReward env job)); try assumption; try reflexivity.
      * intros env' H. exact H.
      * exact (inv_range w HI).
  - (* AfterPauseWait *)
    destruct Hloop as [Hs Hi].
    destruct (loopHead_pending now env job steps (i - 1 + 1) (unschedule k w) Hs
                ltac:(lia))
      as [Hgone | (wk' & t' & Hpend & Hb & Hl & He & Hpr & Hrun & Hg)].
    + rewrite Hgone.
      apply (Inv_pipeline_end w _ k wk (AfterPauseWait env job steps i));
        try assumption; reflexivity.
    + apply (Inv_pipeline_next w _ k wk wk' (AfterPauseWait env job steps i) t');
        try assumption; try reflexivity.
      * intros env' H. cbn. congruence.
      * rewrite Hpr. exact (inv_range w HI).
  - (* AfterTrain *)
    destruct Hloop as [Hs Hi]. subst steps.
    apply (Inv_pipeline_next w _ k wk
             (Timer (Num.truncZ (Num.div (Num.ofZ 300) (Gpu.speed (selectedGpu env)))))
             (AfterTrain env job 10 i) (AfterStepWait env job 10 i));
      try assumption; try reflexivity.
    + cbn. lia.
    + intros env' H. exact H.
    + exact (proj1 (progress_below_100 i Hi)).
  - (* AfterStepWait *)
    destruct Hloop as [Hs Hi].
    destruct (loopHead_pending now env job steps (i + 1) (unschedule k w) Hs
                ltac:(lia))
      as [Hgone | (wk' & t' & Hpend & Hb & Hl & He & Hpr & Hrun & Hg)].
    + rewrite Hgone.
      apply (Inv_pipeline_end w _ k wk (AfterStepWait env job steps i));
        try assumption; reflexivity.
    + apply (Inv_pipeline_next w _ k wk wk' (AfterStepWait env job steps i) t');
        try assumption; try reflexivity.
      * intros env' H. cbn. congruence.
      * rewrite Hpr. exact (inv_range w HI).
  - (* SettleReward *)
    apply (Inv_pipeline_next w _ k wk (Timer 3000) (SettleReward env job)
             HideConfetti); try assumption; try reflexivity.
    cbn. discriminate.
  - (* HideConfetti *)
    apply Inv_idle_task; [exact HI | | | | ]; intros s; reflexivity.
Qed.

Lemma Inv_step :
  forall (now : string) (ev : Event) (w w' : World),
    Inv w -> step now ev w = Some w' -> Inv w'.
Proof.
  intros now ev w w' HI Hstep.
  destruct ev as [value | | | canShare | | k o]; cbn [step] in Hstep.
  - (* Select *)
    destruct (isRunning (store w)) eqn:E; [discriminate | ].
    destruct (find _ gpus) as [g | ]; [ | discriminate].
    inversion Hstep; subst w'.
    apply (Inv_shrink w); [exact HI | | | | | | ].
    + intros p Hin. exact Hin.
    + apply Nat.le_refl.
    + reflexivity.
    + reflexivity.
    + intros _. exact (proj2 (inv_idle w HI E)).
    + intro H. congruence.
  - (* Start *)
    destruct (isRunning (store w)) eqn:E; [discriminate | ].
    inversion Hstep; subst w'. now apply Inv_start.
  - (* Pause *)
    destruct (isRunning (store w)) eqn:E; [ | discriminate].
    inversion Hstep; subst w'.
    apply (Inv_running_frame w); try assumption; reflexivity.
  - (* Share *)
    destruct (isRunning (store w)) eqn:E; [ | discriminate].
    inversion Hstep; subst w'. unfold shareEarnings.
    destruct canShare; apply (Inv_running_frame w); try assumption; reflexivity.
  - (* Sound *)
    destruct (isRunning (store w)) eqn:E; [ | discriminate].
    inversion Hstep; subst w'.
    apply (Inv_running_frame w); try assumption; reflexivity.
  - (* Fire *)
    destruct (nth_error (pending w) k) as [[wk t] | ] eqn:E; [ | discriminate].
    destruct (validOracle o); [ | discriminate].
    inversion Hstep; subst w'. now apply (Inv_fire now o k wk t).
Qed.

Lemma reachable_Inv : forall w : World, reachable w -> Inv w.
Proof.
  induction 1 as [ | w now ev w' _ IH Hstep].
  - exact Inv_initial.
  - exact (Inv_step now ev w w' IH Hstep).
Qed.

(** ** Progress *)

(** The world right after the start button is pressed on the fresh page. *)
Definition startedWorld : World :=
  startSimulation "10:00:00" initialState initialWorld.

(** C7: in every reachable world the progress lies in [0, 100]; whenever
    the callback that opens a training stage is pending, the progress is 0,
    so every training stage starts from 0; and both the start of a run and
    the settlement of a job write 0. *)
Theorem progress_stays_in_range :
  forall w : World,
    reachable w ->
    inRange (progress (store w)) = true
    /\ (forall (k : nat) (wk : Wake) (env : Env) (job : Job.t),
          nth_error (pending w) k = Some (wk, BeginTraining env job) ->
          progress (store w) = Num.ofZ 0)
    /\ (forall now : string,
          progress (store (startSimulation now (store w) w)) = Num.ofZ 0)
    /\ (forall (now : string) (o : Oracle) (env : Env) (job : Job.t),
          progress (store (runTask now o (SettleReward env job) w)) = Num.ofZ 0).
Proof.
  intros w Hw. pose proof (reachable_Inv w Hw) as HI.
  split; [exact (inv_range w HI) | ].
  split; [ | split].
  - intros k wk env job Hnth.
    apply (inv_begin w HI (wk, BeginTraining env job)); [ | reflexivity].
    eapply nth_error_In. exact Hnth.
  - intro now. apply (startSimulation_store now (store w) w).
  - intros now o env job. reflexivity.
Qed.

Lemma progress_stays_in_range_witness :
  inRange (progress (store startedWorld)) = true
  /\ nth_error (pending startedWorld) 1
     = Some (Timer 1000, BeginTraining initialState resnetJob)
  /\ progress (store startedWorld) = Num.ofZ 0.
Proof.
  assert (Hreach : reachable startedWorld).
  { apply (reach_step initialWorld "10:00:00" Start);
      [apply reach_init | reflexivity]. }
  pose proof (progress_stays_in_range startedWorld Hreach)
    as [Hrange [Hbegin _]].
  split; [exact Hrange | ].
  split; [reflexivity | ].
  apply (Hbegin 1%nat (Timer 1000) initialState resnetJob). reflexivity.
Defined.

(** ** Sessions on the page *)

(** The categories the type of the log declares. *)
Definition declaredCategory (t : string) : bool :=
  (String.eqb t "info" || String.eqb t "success" || String.eqb t "bid")%bool.

(** The categories the handlers pass to [addLog]. *)
Definition loggedCategory (t : string) : bool :=
  (declaredCategory t || String.eqb t "train")%bool.

(** A session whose start button was pressed after the mount effect had
    created the model: the training callback runs and the training call
    raises. *)
Definition readyScript : list (string * Event) :=
  [ ("10:00:00", Fire 0 (lateStartEarlyEnd None));
    ("10:00:01", Start);
    ("10:00:02", Fire 0 (lateStartEarlyEnd None)) ].

Definition afterTrainingCall : World :=
  Eval vm_compute in
    match run readyScript initialWorld with
    | Some w => w
    | None => initialWorld
    end.

Lemma afterTrainingCall_run : run readyScript initialWorld = Some afterTrainingCall.
Proof. vm_compute. reflexivity. Qed.

(** The same session with the pause button pressed afterwards. *)
Definition pausedAfterCall : World :=
  Eval vm_compute in
    togglePause "10:00:03" (store afterTrainingCall) afterTrainingCall.

(** The model is ready and the run is started and paused, with the training
    callback still to come. *)
Definition pausedScript : list (string * Event) :=
  [ ("10:00:00", Fire 0 (lateStartEarlyEnd None));
    ("10:00:01", Start);
    ("10:00:01", Pause) ].

Definition pausedBeforeTraining : World :=
  Eval vm_compute in
    match run pausedScript initialWorld with
    | Some w => w
    | None => initialWorld
    end.

(** A session whose start button was pressed before the model existed: the
    training stage is skipped and the proof stage follows. *)
Definition provingScript : list (string * Event) :=
  [ ("10:00:01", Start);
    ("10:00:01", Fire 0 (lateStartEarlyEnd None));
    ("10:00:02", Fire 0 (lateStartEarlyEnd None)) ].

(** The world in which the settlement timer is the next task to run. *)
Definition beforeSettlement : World :=
  Eval vm_compute in
    match run provingScript initialWorld with
    | Some w => w
    | None => initialWorld
    end.

(** A whole session: the proof stage, then the settlement timer. *)
Definition sessionScript : list (string * Event) :=
  provingScript ++ [("10:00:04", Fire 0 (lateStartEarlyEnd None))].

(** The world in which the one job of the page has been settled. *)
Definition settledWorld : World :=
  Eval vm_compute in
    match run sessionScript initialWorld with
    | Some w => w
    | None => initialWorld
    end.

Lemma settledWorld_run : run sessionScript initialWorld = Some settledWorld.
Proof. vm_compute. reflexivity. Qed.

(** The environment a run captures when the model is ready. *)
Definition runEnv : Env := setModel (Some sequentialModel) initialState.

(** *** The loop and the captured flag *)

(** The loop reads the [isPaused] of the render that started the run.  When
    that captured flag is set, an iteration waits 100 ms and comes back to
    the same index without touching the state. *)
Lemma paused_closure_retries :
  forall (now : string) (o : Oracle) (env : Env) (job : Job.t) (steps i : Z)
         (w : World),
    isPaused env = true -> i < steps ->
    runTask now o (AfterPauseWait env job steps i) w =
    defer (Timer 100) (AfterPauseWait env job steps i) w.
Proof.
  intros now o env job steps i w Hp Hi. cbn [runTask]. unfold loopHead.
  replace (i - 1 + 1) with i by lia.
  apply Z.ltb_lt in Hi. now rewrite Hi, Hp.
Qed.

(** When the captured flag is clear the loop head makes the training call
    of its index, and the call raises: the loop is over and nothing is
    armed, whatever the paused flag of the state is by then. *)
Lemma unpaused_closure_raises :
  forall (now : string) (env : Env) (job : Job.t) (steps i : Z) (w : World),
    isPaused env = false -> i < steps ->
    loopHead now env job steps i w = w.
Proof.
  intros now env job steps i w Hp Hi. unfold loopHead.
  apply Z.ltb_lt in Hi. now rewrite Hi, Hp, no_train_method.
Qed.

(** Every run is started with the paused flag clear, so no pipeline task of
    a reachable world has captured a set flag; and it has captured the
    device that is still selected. *)
Lemma pending_env :
  forall (w : World) (wk : Wake) (t : Task) (env : Env),
    reachable w -> In (wk, t) (pending w) -> taskEnv t = Some env ->
    isPaused env = false /\ selectedGpu env = selectedGpu (store w).
Proof.
  intros w wk t env Hw Hin Henv.
  exact (inv_env w (reachable_Inv w Hw) (wk, t) env Hin Henv).
Qed.


(** *** No step of the loop is ever taken *)

(** The continuations of the training loop. *)
Definition isLoop (t : Task) : bool :=
  match t with
  | AfterPauseWait _ _ _ _ | AfterTrain _ _ _ _ | AfterStepWait _ _ _ _ => true
  | _ => false
  end.

Definition declaredLog (w : World) : Prop :=
  Forall (fun e => declaredCategory (Log.type e) = true) (logs (store w)).

Record Quiet (w : World) : Prop := mkQuiet
  { q_noloop : forall p, In p (pending w) -> isLoop (snd p) = false;
    q_progress : progress (store w) = Num.ofZ 0;
    q_logs : declaredLog w }.

Lemma declaredLog_addLog :
  forall (now msg type : string) (w : World),
    declaredCategory type = true -> declaredLog w ->
    declaredLog (addLog now msg type w).
Proof.
  intros now msg type w Ht Hw. unfold declaredLog, addLog. cbn.
  apply Forall_app. split; [exact Hw | ]. constructor; [exact Ht | constructor].
Qed.

Lemma declaredLog_same :
  forall w w' : World,
    logs (store w') = logs (store w) -> declaredLog w -> declaredLog w'.
Proof. intros w w' H. unfold declaredLog. now rewrite H. Qed.

(** The log a start leaves: its own entry and the one of [processJob]. *)
Lemma startSimulation_logs :
  forall (now : string) (env : Env) (w : World),
    exists e, logs (store (startSimulation now env w)) = [startedEntry now env; e]
              /\ Log.time e = now
              /\ (Log.type e = "info" \/ Log.type e = "bid").
Proof.
  intros now env w. unfold startSimulation.
  set (w0 := addLog now _ "info" _).
  destruct (processJob_logs_one now env w0) as (e & He & Ht & Hc).
  exists e. rewrite He. subst w0. repeat split; assumption.
Qed.

Lemma Quiet_fire :
  forall (now : string) (o : Oracle) (k : nat) (wk : Wake) (t : Task) (w : World),
    Inv w -> Quiet w -> nth_error (pending w) k = Some (wk, t) ->
    Quiet (runTask now o t (unschedule k w)).
Proof.
  intros now o k wk t w HI [Hn Hp Hl] Hnth.
  assert (Hin : In (wk, t) (pending w)) by (eapply nth_error_In; exact Hnth).
  pose proof (Hn _ Hin) as Hnl. cbn [snd] in Hnl.
  assert (Hrest : forall p, In p (removeNth k (pending w)) -> isLoop (snd p) = false)
    by (intros p Hp'; apply Hn; exact (In_removeNth _ k _ p Hp')).
  assert (H0 : declaredLog (unschedule k w)) by (now apply (declaredLog_same w)).
  destruct t as [ | | env job | env job steps i | env job steps i
                | env job steps i | env job | ]; try discriminate Hnl;
    cbn [runTask].
  - constructor; [exact Hrest | exact Hp | now apply (declaredLog_same w)].
  - constructor; [exact Hrest | exact Hp | now apply (declaredLog_same w)].
  - destruct (inv_env w HI (wk, BeginTraining env job) env Hin eq_refl)
      as [Hunp _].
    set (w1 := addLog now "Training model..." "info" (unschedule k w)).
    assert (H1 : declaredLog w1) by (now apply declaredLog_addLog).
    unfold trainModel. destruct (model env).
    + rewrite (unpaused_closure_raises now env job 10 0 _ Hunp ltac:(lia)).
      constructor; [exact Hrest | exact Hp | now apply (declaredLog_same w1)].
    + unfold generateProof. constructor.
      * intros p Hp'. cbn [pending defer playSound addLog onStore] in Hp'.
        apply in_app_or in Hp'. destruct Hp' as [Hp' | [<- | []]];
          [now apply Hrest | reflexivity].
      * exact Hp.
      * apply (declaredLog_same
                 (addLog now "Generating proof..." "info" (playSound "train" w1)));
          [reflexivity | ].
        apply declaredLog_addLog; [reflexivity | ].
        now apply (declaredLog_same w1).
  - constructor.
    + intros p Hp'. cbn [pending settle defer playSound addLog onStore] in Hp'.
      apply in_app_or in Hp'. destruct Hp' as [Hp' | [<- | []]];
        [now apply Hrest | reflexivity].
    + reflexivity.
    + match goal with
      | |- declaredLog (settle ?n ?e ?j ?x) =>
          apply (declaredLog_same
                   (addLog n ("Proof accepted! +"
                              +++ Num.toFixed 2 (Num.mul (Job.reward j)
                                                         (Gpu.speed (selectedGpu e)))
                              +++ " $SY earned ðŸŽ‰") "success" x));
            [reflexivity | ]
      end.
      apply declaredLog_addLog; [reflexivity | exact H0].
  - constructor; [exact Hrest | exact Hp | now apply (declaredLog_same w)].
Qed.

Lemma Quiet_step :
  forall (now : string) (ev : Event) (w w' : World),
    Inv w -> Quiet w -> step now ev w = Some w' -> Quiet w'.
Proof.
  intros now ev w w' HI HQ Hstep.
  destruct ev as [value | | | canShare | | k o]; cbn [step] in Hstep.
  - destruct (isRunning (store w)); [discriminate | ].
    destruct (find _ gpus) as [g | ]; [ | discriminate].
    inversion Hstep; subst w'. destruct HQ as [Hn Hp Hl].
    constructor; [exact Hn | exact Hp | now apply (declaredLog_same w)].
  - destruct (isRunning (store w)); [discriminate | ].
    inversion Hstep; subst w'. destruct HQ as [Hn Hp Hl].
    constructor.
    + intros p Hin. unfold startSimulation in Hin.
      match type of Hin with
      | In p (pending (processJob ?n ?e ?x)) =>
          destruct (processJob_pending n e x) as (wk & t & Hpend & Ht)
      end.
      rewrite Hpend in Hin. apply in_app_or in Hin.
      destruct Hin as [Hin | [<- | []]]; [now apply Hn | ].
      destruct Ht as [-> | [job ->]]; reflexivity.
    + apply (startSimulation_store now (store w) w).
    + destruct (startSimulation_logs now (store w) w) as (e & He & _ & Ht).
      unfold declaredLog. rewrite He.
      constructor; [reflexivity | ]. constructor; [ | constructor].
      destruct Ht as [-> | ->]; reflexivity.
  - destruct (isRunning (store w)); [ | discriminate].
    inversion Hstep; subst w'. destruct HQ as [Hn Hp Hl].
    constructor; [exact Hn | exact Hp | ].
    unfold togglePause. apply declaredLog_addLog; [reflexivity | ].
    now apply (declaredLog_same w).
  - destruct (isRunning (store w)); [ | discriminate].
    inversion Hstep; subst w'. destruct HQ as [Hn Hp Hl].
    unfold shareEarnings. destruct canShare.
    + constructor; [exact Hn | exact Hp | now apply (declaredLog_same w)].
    + constructor; [exact Hn | exact Hp | ].
      apply declaredLog_addLog; [reflexivity | ].
      now apply (declaredLog_same w).
  - destruct (isRunning (store w)); [ | discriminate].
    inversion Hstep; subst w'. destruct HQ as [Hn Hp Hl].
    constructor; [exact Hn | exact Hp | now apply (declaredLog_same w)].
  - destruct (nth_error (pending w) k) as [[wk t] | ] eqn:E; [ | discriminate].
    destruct (validOracle o); [ | discriminate].
    inversion Hstep; subst w'. now apply (Quiet_fire now o k wk t).
Qed.

Lemma reachable_Quiet : forall w : World, reachable w -> Quiet w.
Proof.
  induction 1 as [ | w now ev w' Hw IH Hstep].
  - constructor.
    + intros p [<- | []]. reflexivity.
    + reflexivity.
    + constructor.
  - exact (Quiet_step now ev w w' (reachable_Inv w Hw) IH Hstep).
Qed.

(** *** The log *)

(** C9: every entry of the log of a reachable world has one of the three
    declared categories info, success and bid.  The only call that passes
    another one sits behind the training call, which never resolves. *)
Theorem log_categories_are_declared :
  forall w : World,
    reachable w ->
    Forall (fun e => declaredCategory (Log.type e) = true) (logs (store w)).
Proof.
  intros w Hw. exact (q_logs w (reachable_Quiet w Hw)).
Qed.

Lemma log_categories_are_declared_witness :
  Forall (fun e => declaredCategory (Log.type e) = true)
         (logs (store settledWorld)).
Proof.
  apply (log_categories_are_declared settledWorld).
  apply (run_reachable sessionScript initialWorld settledWorld reach_init).
  vm_compute. reflexivity.
Defined.

(** *** The training stage *)

(** C3: no training step completes.  In every reachable world the progress
    is 0, never 100, and no continuation of the training loop is pending;
    and when the training callback of a run that captured a model runs, it
    logs its own entry, the training call raises, and nothing is armed. *)
Theorem no_training_step_completes :
  forall (w w' : World) (now : string) (k : nat) (o : Oracle) (wk : Wake)
         (env : Env) (job : Job.t) (m : LayersModel),
    reachable w ->
    nth_error (pending w) k = Some (wk, BeginTraining env job) ->
    model env = Some m ->
    step now (Fire k o) w = Some w' ->
    logs (store w') = logs (store w)
                      ++ [Log.mk now "[INFO] Training model..." "info"]
    /\ pending w' = removeNth k (pending w)
    /\ progress (store w') = Num.ofZ 0
    /\ (forall w'' : World,
          reachable w'' ->
          progress (store w'') = Num.ofZ 0
          /\ Num.eqb (progress (store w'')) (Num.ofZ 100) = false
          /\ forall (j : nat) (wk' : Wake) (t : Task),
               nth_error (pending w'') j = Some (wk', t) -> isLoop t = false).
Proof.
  intros w w' now k o wk env job m Hw Hnth Hm Hstep.
  assert (Hall : forall w'' : World,
            reachable w'' ->
            progress (store w'') = Num.ofZ 0
            /\ Num.eqb (progress (store w'')) (Num.ofZ 100) = false
            /\ forall (j : nat) (wk' : Wake) (t : Task),
                 nth_error (pending w'') j = Some (wk', t) -> isLoop t = false).
  { intros w'' Hw''. destruct (reachable_Quiet w'' Hw'') as [Hn Hp _].
    split; [exact Hp | ]. split; [now rewrite Hp | ].
    intros j wk' t Hj. apply nth_error_In in Hj. exact (Hn _ Hj). }
  destruct (pending_env w wk _ env Hw (nth_error_In _ _ Hnth) eq_refl)
    as [Hunp _].
  cbn [step] in Hstep. rewrite Hnth in Hstep.
  destruct (validOracle o); [ | discriminate].
  assert (E : w' = playSound "train"
                     (addLog now "Training model..." "info" (unschedule k w))).
  { injection Hstep as <-. cbn [runTask]. unfold trainModel. rewrite Hm.
    apply (unpaused_closure_raises now env job 10 0 _ Hunp). lia. }
  rewrite E. split; [reflexivity | ]. split; [reflexivity | ].
  split; [ | exact Hall].
  exact (q_progress w (reachable_Quiet w Hw)).
Qed.

(** The model is ready and the run is started, with the training callback
    still to come. *)
Definition readyToTrain : World :=
  Eval vm_compute in
    match run [ ("10:00:00", Fire 0 (lateStartEarlyEnd None));
                ("10:00:01", Start) ] initialWorld with
    | Some w => w
    | None => initialWorld
    end.

Lemma no_training_step_completes_witness :
  pending afterTrainingCall = removeNth 0 (pending readyToTrain)
  /\ progress (store afterTrainingCall) = Num.ofZ 0.
Proof.
  assert (Hreach : reachable readyToTrain).
  { apply (run_reachable [ ("10:00:00", Fire 0 (lateStartEarlyEnd None));
                           ("10:00:01", Start) ] initialWorld readyToTrain
                         reach_init).
    vm_compute. reflexivity. }
  pose proof (no_training_step_completes readyToTrain afterTrainingCall
                "10:00:02" 0%nat (lateStartEarlyEnd None) (Timer 1000)
                runEnv resnetJob sequentialModel Hreach) as H.
  destruct H as (_ & Hp & Hg & _).
  - vm_compute. reflexivity.
  - reflexivity.
  - vm_compute. reflexivity.
  - split; assumption.
Defined.

(** C4: no step of any run logs an accuracy.  The log of a reachable world
    holds no entry of a training step, so there is no pair of steps whose
    figures could be compared. *)
Theorem no_accuracy_is_logged :
  forall w : World,
    reachable w ->
    stepEntries (logs (store w)) = []
    /\ forall e : Log.entry, In e (logs (store w)) -> Log.type e <> "train".
Proof.
  intros w Hw. pose proof (q_logs w (reachable_Quiet w Hw)) as Hl.
  unfold declaredLog in Hl.
  assert (Hno : forall e : Log.entry,
            In e (logs (store w)) -> Log.type e <> "train").
  { intros e Hin Ht. rewrite Forall_forall in Hl. specialize (Hl e Hin).
    rewrite Ht in Hl. discriminate Hl. }
  split; [ | exact Hno].
  unfold stepEntries.
  destruct (filter (fun e => String.eqb (Log.type e) "train") (logs (store w)))
    as [ | e r] eqn:E; [reflexivity | ].
  assert (Hin : In e (filter (fun e => String.eqb (Log.type e) "train")
                             (logs (store w)))) by (rewrite E; now left).
  apply filter_In in Hin. destruct Hin as [Hin Ht].
  apply String.eqb_eq in Ht. now destruct (Hno e Hin).
Qed.

Lemma no_accuracy_is_logged_witness :
  stepEntries (logs (store afterTrainingCall)) = [].
Proof.
  apply (no_accuracy_is_logged afterTrainingCall).
  apply (run_reachable readyScript initialWorld afterTrainingCall reach_init).
  vm_compute. reflexivity.
Defined.

(** *** Pausing *)

(** C6: while the paused flag is set no training step is counted.  Whatever
    happens in a reachable world whose flag is set, the step entries and the
    progress stay as they were and no continuation of the loop is pending;
    and an iteration of the loop that finds its flag set waits 100 ms and
    comes back to the same index with the state untouched, as long as the
    flag it reads is set. *)
Theorem paused_steps_do_not_advance :
  forall (now : string) (ev : Event) (w w' : World),
    reachable w ->
    isPaused (store w) = true ->
    step now ev w = Some w' ->
    stepEntries (logs (store w')) = stepEntries (logs (store w))
    /\ progress (store w') = progress (store w)
    /\ (forall (k : nat) (wk : Wake) (t : Task),
          nth_error (pending w') k = Some (wk, t) -> isLoop t = false)
    /\ (forall (now' : string) (o : Oracle) (env : Env) (job : Job.t)
               (steps i : Z) (w0 : World),
          isPaused env = true -> i < steps ->
          runTask now' o (AfterPauseWait env job steps i) w0
          = defer (Timer 100) (AfterPauseWait env job steps i) w0).
Proof.
  intros now ev w w' Hw Hp Hstep.
  pose proof (reach_step w now ev w' Hw Hstep) as Hw'.
  destruct (reachable_Quiet w Hw) as [_ Hg Hl].
  destruct (reachable_Quiet w' Hw') as [Hn' Hg' Hl'].
  assert (Hnone : forall x : World, declaredLog x -> stepEntries (logs (store x)) = []).
  { intros x Hx. unfold stepEntries, declaredLog in *.
    induction (logs (store x)) as [ | e r IH]; [reflexivity | ].
    inversion Hx as [ | e' r' He Hr]; subst. cbn [filter].
    destruct (String.eqb (Log.type e) "train") eqn:Ht; [ | now apply IH].
    apply String.eqb_eq in Ht. rewrite Ht in He. discriminate He. }
  split; [now rewrite (Hnone w Hl), (Hnone w' Hl') | ].
  split; [now rewrite Hg, Hg' | ].
  split.
  - intros k wk t Hk. apply nth_error_In in Hk. exact (Hn' _ Hk).
  - intros now' o env job steps i w0 He Hi.
    exact (paused_closure_retries now' o env job steps i w0 He Hi).
Qed.

Lemma paused_steps_do_not_advance_witness :
  isPaused (store pausedBeforeTraining) = true
  /\ stepEntries (logs (store (runTask "10:00:02" (lateStartEarlyEnd None)
                                       (BeginTraining runEnv resnetJob)
                                       (unschedule 0 pausedBeforeTraining))))
     = stepEntries (logs (store pausedBeforeTraining)).
Proof.
  split; [reflexivity | ].
  apply (paused_steps_do_not_advance "10:00:02"
           (Fire 0 (lateStartEarlyEnd None)) pausedBeforeTraining).
  - apply (run_reachable pausedScript initialWorld pausedBeforeTraining reach_init).
    vm_compute. reflexivity.
  - reflexivity.
  - vm_compute. reflexivity.
Defined.

(** *** Starting *)



(** * Further properties of the handlers *)

(** ** What a step writes to the log *)

(** The entry [addLog] builds. *)
Definition logEntry (now msg type : string) : Log.entry :=
  Log.mk now ("[" +++ toUpperCase type +++ "] " +++ msg) type.

(** An entry written by some handler that ran at the reading [now]. *)
Definition written (now : string) (e : Log.entry) : Prop :=
  exists msg type, e = logEntry now msg type /\ loggedCategory type = true.

(** [w'] has the log of [w] followed by at most [n] entries written at [now]. *)
Definition logged (now : string) (n : nat) (w w' : World) : Prop :=
  exists extra, logs (store w') = logs (store w) ++ extra
                /\ Forall (written now) extra
                /\ (List.length extra <= n)%nat.

Lemma logged_same :
  forall (now : string) (n : nat) (w w' : World),
    logs (store w') = logs (store w) -> logged now n w w'.
Proof.
  intros now n w w' H. exists []. rewrite app_nil_r.
  split; [exact H | ]. split; [constructor | cbn; lia].
Qed.

Lemma logged_addLog :
  forall (now msg type : string) (w : World),
    loggedCategory type = true -> logged now 1 w (addLog now msg type w).
Proof.
  intros now msg type w Ht. exists [logEntry now msg type].
  split; [reflexivity | ]. split; [ | cbn; lia].
  constructor; [ | constructor]. now exists msg, type.
Qed.

Lemma logged_trans :
  forall (now : string) (n m : nat) (w1 w2 w3 : World),
    logged now n w1 w2 -> logged now m w2 w3 -> logged now (n + m) w1 w3.
Proof.
  intros now n m w1 w2 w3 (e1 & H1 & F1 & L1) (e2 & H2 & F2 & L2).
  exists (e1 ++ e2). rewrite H2, H1, app_assoc.
  split; [reflexivity | ]. split.
  - apply Forall_app. now split.
  - rewrite length_app. lia.
Qed.

Lemma logged_weaken :
  forall (now : string) (n m : nat) (w w' : World),
    (n <= m)%nat -> logged now n w w' -> logged now m w w'.
Proof.
  intros now n m w w' Hle (e & H & F & L). exists e. repeat split; auto. lia.
Qed.

Lemma logged_loopHead :
  forall (now : string) (env : Env) (job : Job.t) (steps i : Z) (w : World),
    logged now 1 w (loopHead now env job steps i w).
Proof.
  intros now env job steps i w. unfold loopHead, generateProof.
  destruct (i <? steps); [destruct (isPaused env) | ].
  - now apply logged_same.
  - now apply logged_same.
  - apply (logged_trans now 1 0 w (addLog now "Generating proof..." "info" w)).
    + now apply logged_addLog.
    + now apply logged_same.
Qed.

Lemma logged_processJob :
  forall (now : string) (env : Env) (w : World),
    logged now 1 w (processJob now env w).
Proof.
  intros now env w. unfold processJob.
  destruct (List.length (jobQueue env) <=? currentJob env)%nat.
  - apply (logged_trans now 1 0 w
             (addLog now "Queue empty. Fetching more jobs..." "info" w)).
    + now apply logged_addLog.
    + now apply logged_same.
  - destruct (nth_error (jobQueue env) (currentJob env)) as [job | ].
    + match goal with
      | |- logged _ _ _ (defer _ _ (playSound _ (addLog ?n ?m ?t ?x))) =>
          apply (logged_trans now 1 0 w (addLog n m t x));
            [now apply logged_addLog | now apply logged_same]
      end.
    + now apply logged_same.
Qed.

Lemma logged_runTask :
  forall (now : string) (o : Oracle) (t : Task) (w : World),
    logged now 2 w (runTask now o t w).
Proof.
  intros now o t w.
  destruct t as [ | | env job | env job steps i | env job steps i
                | env job steps i | env job | ]; cbn [runTask].
  - now apply logged_same.
  - now apply logged_same.
  - set (w0 := playSound "train" (addLog now "Training model..." "info" w)).
    assert (H0 : logged now 1 w w0).
    { apply (logged_trans now 1 0 w (addLog now "Training model..." "info" w)).
      - now apply logged_addLog.
      - now apply logged_same. }
    unfold trainModel. destruct (model env).
    + apply (logged_trans now 1 1 w w0); [exact H0 | apply logged_loopHead].
    + apply (logged_trans now 1 1 w w0); [exact H0 | ].
      unfold generateProof.
      apply (logged_trans now 1 0 w0 (addLog now "Generating proof..." "info" w0)).
      * now apply logged_addLog.
      * now apply logged_same.
  - apply (logged_weaken now 1); [lia | apply logged_loopHead].
  - apply (logged_trans now 1 1 w
             (addLog now (stepMessage steps i (loss o)) "train" w)).
    + now apply logged_addLog.
    + now apply logged_same.
  - apply (logged_weaken now 1); [lia | apply logged_loopHead].
  - exists [logEntry now
              ("Proof accepted! +"
               +++ Num.toFixed 2 (Num.mul (Job.reward job) (Gpu.speed (selectedGpu env)))
               +++ " $SY earned ðŸŽ‰") "success"].
    split; [reflexivity | ]. split; [ | cbn; lia].
    constructor; [ | constructor]. do 2 eexists. split; reflexivity.
  - now apply logged_same.
Qed.

Definition isStart (ev : Event) : bool :=
  match ev with Start => true | _ => false end.

(** The log is append-only between starts: an event other than the start
    keeps every entry in place and adds at most two, each stamped with the
    reading of that event and prefixed with its category in capitals. *)
Theorem log_is_append_only :
  forall (now : string) (ev : Event) (w w' : World),
    step now ev w = Some w' ->
    isStart ev = false ->
    exists extra,
      logs (store w') = logs (store w) ++ extra
      /\ (List.length extra <= 2)%nat
      /\ Forall (fun e => Log.time e = now
                          /\ exists body,
                               Log.msg e = "[" +++ toUpperCase (Log.type e) +++ "] "
                                           +++ body) extra.
Proof.
  intros now ev w w' Hstep Hev.
  assert (H : logged now 2 w w').
  { destruct ev as [value | | | canShare | | k o]; cbn [step] in Hstep;
      try discriminate Hev.
    - destruct (isRunning (store w)); [discriminate | ].
      destruct (find _ gpus) as [g | ]; [ | discriminate].
      inversion Hstep; subst w'. now apply logged_same.
    - destruct (isRunning (store w)); [ | discriminate].
      inversion Hstep; subst w'. unfold togglePause.
      apply (logged_trans now 0 2 w (onStore (setIsPaused (negb (isPaused (store w)))) w)).
      + now apply logged_same.
      + apply (logged_weaken now 1); [lia | now apply logged_addLog].
    - destruct (isRunning (store w)); [ | discriminate].
      inversion Hstep; subst w'. unfold shareEarnings.
      destruct canShare; [now apply logged_same | ].
      match goal with
      | |- logged _ _ _ (addLog ?n ?m ?t ?x) =>
          apply (logged_trans now 0 2 w x);
            [now apply logged_same
            | apply (logged_weaken now 1); [lia | now apply logged_addLog]]
      end.
    - destruct (isRunning (store w)); [ | discriminate].
      inversion Hstep; subst w'. now apply logged_same.
    - destruct (nth_error (pending w) k) as [[wk t] | ]; [ | discriminate].
      destruct (validOracle o); [ | discriminate].
      inversion Hstep; subst w'.
      apply (logged_trans now 0 2 w (unschedule k w)).
      + now apply logged_same.
      + apply logged_runTask. }
  destruct H as (extra & Hlogs & Hall & Hlen).
  exists extra. split; [exact Hlogs | ]. split; [exact Hlen | ].
  eapply Forall_impl; [ | exact Hall].
  intros e (msg & type & -> & _). split; [reflexivity | ].
  exists msg. reflexivity.
Qed.

Lemma log_is_append_only_witness :
  exists extra,
    logs (store pausedAfterCall) = logs (store afterTrainingCall) ++ extra
    /\ (List.length extra <= 2)%nat
    /\ Forall (fun e => Log.time e = "10:00:03"
                        /\ exists body,
                             Log.msg e = "[" +++ toUpperCase (Log.type e) +++ "] "
                                         +++ body) extra.
Proof.
  apply (log_is_append_only "10:00:03" Pause afterTrainingCall pausedAfterCall).
  - vm_compute. reflexivity.
  - reflexivity.
Defined.

(** ** One job per page load

    [processJob] is called by [startSimulation] only, and the running flag
    is never cleared, so the pipeline runs once: on the first job of the
    initial queue. *)

Definition taskJob (t : Task) : option Job.t :=
  match t with
  | BeginTraining _ j | AfterPauseWait _ j _ _ | AfterTrain _ j _ _
  | AfterStepWait _ j _ _ | SettleReward _ j => Some j
  | InitModel | RefillQueue | HideConfetti => None
  end.

Definition isRefill (t : Task) : bool :=
  match t with RefillQueue => true | _ => false end.

Record SingleJob (w : World) : Prop := mkSingleJob
  { sj_queue : jobQueue (store w) = [resnetJob; llamaJob];
    sj_norefill : forall p, In p (pending w) -> isRefill (snd p) = false;
    sj_job : forall p j, In p (pending w) -> taskJob (snd p) = Some j ->
                         j = resnetJob;
    sj_once : (currentJob (store w) + countPipeline (pending w) <= 1)%nat;
    sj_idle : isRunning (store w) = false -> currentJob (store w) = 0%nat;
    sj_unpaid : currentJob (store w) = 0%nat -> earnings (store w) = Num.ofZ 0;
    sj_paid : currentJob (store w) = 1%nat ->
              earnings (store w) =
              Num.add (Num.ofZ 0)
                      (Num.mul (Job.reward resnetJob)
                               (Gpu.speed (selectedGpu (store w))));
    sj_gpu : In (selectedGpu (store w)) gpus }.

Lemma SingleJob_initial : SingleJob initialWorld.
Proof.
  constructor; cbn [initialWorld store pending].
  - reflexivity.
  - intros p [<- | []]. reflexivity.
  - intros p j [<- | []]. discriminate.
  - cbn. lia.
  - reflexivity.
  - reflexivity.
  - discriminate.
  - left. reflexivity.
Qed.

Lemma SingleJob_frame :
  forall w w' : World,
    SingleJob w ->
    (forall p, In p (pending w') -> In p (pending w)) ->
    (countPipeline (pending w') <= countPipeline (pending w))%nat ->
    jobQueue (store w') = jobQueue (store w) ->
    currentJob (store w') = currentJob (store w) ->
    earnings (store w') = earnings (store w) ->
    isRunning (store w') = isRunning (store w) ->
    selectedGpu (store w') = selectedGpu (store w) ->
    SingleJob w'.
Proof.
  intros w w' [Hq Hn Hj Ho Hi Hu Hp Hg] Hin Hc Eq Ec Ee Er Eg.
  constructor.
  - now rewrite Eq.
  - intros p Hp'. auto.
  - intros p j Hp'. eauto.
  - rewrite Ec. lia.
  - rewrite Er, Ec. exact Hi.
  - rewrite Ec, Ee. exact Hu.
  - rewrite Ec, Ee, Eg. exact Hp.
  - now rewrite Eg.
Qed.

Lemma removeNth_count_le :
  forall (k : nat) (l : list (Wake * Task)),
    (countPipeline (removeNth k l) <= countPipeline l)%nat.
Proof.
  intros k l. revert k.
  induction l as [ | a l IH]; intros k; [destruct k; apply Nat.le_refl | ].
  destruct k as [ | k]; unfold countPipeline in *; cbn.
  - destruct (isPipeline (snd a)); cbn; lia.
  - specialize (IH k). destruct (isPipeline (snd a)); cbn; lia.
Qed.

(** What the loop head leaves behind: at most one more pipeline task, for
    the same job, and a state that differs in the log at most. *)
Lemma loopHead_successor :
  forall (now : string) (env : Env) (job : Job.t) (steps i : Z) (w : World),
    exists tail,
      pending (loopHead now env job steps i w) = pending w ++ tail
      /\ (List.length tail <= 1)%nat
      /\ (forall p, In p tail ->
                    isPipeline (snd p) = true /\ taskJob (snd p) = Some job)
      /\ jobQueue (store (loopHead now env job steps i w)) = jobQueue (store w)
      /\ currentJob (store (loopHead now env job steps i w)) = currentJob (store w)
      /\ earnings (store (loopHead now env job steps i w)) = earnings (store w)
      /\ isRunning (store (loopHead now env job steps i w)) = isRunning (store w)
      /\ selectedGpu (store (loopHead now env job steps i w))
         = selectedGpu (store w).
Proof.
  intros now env job steps i w. unfold loopHead.
  assert (Hone : forall (wk : Wake) (t : Task),
            isPipeline t = true -> taskJob t = Some job ->
            forall p, In p [(wk, t)] ->
                      isPipeline (snd p) = true /\ taskJob (snd p) = Some job)
    by (intros wk t H1 H2 p [<- | []]; now split).
  destruct (i <? steps);
    [destruct (isPaused env); [ | destruct (hasMethod "train")] | ].
  - eexists. split; [reflexivity | ]. split; [cbn; lia | ].
    split; [now apply Hone | repeat split].
  - eexists. split; [reflexivity | ]. split; [cbn; lia | ].
    split; [now apply Hone | repeat split].
  - exists []. rewrite app_nil_r. split; [reflexivity | ].
    split; [cbn; lia | ]. split; [intros p [] | repeat split].
  - eexists. split; [reflexivity | ]. split; [cbn; lia | ].
    split; [now apply Hone | repeat split].
Qed.

(** The same for every pipeline task but the settlement. *)
Lemma pipeline_successor :
  forall (now : string) (o : Oracle) (t : Task) (job : Job.t) (w : World),
    taskJob t = Some job ->
    (forall env, t <> SettleReward env job) ->
    exists tail,
      pending (runTask now o t w) = pending w ++ tail
      /\ (List.length tail <= 1)%nat
      /\ (forall p, In p tail ->
                    isPipeline (snd p) = true /\ taskJob (snd p) = Some job)
      /\ jobQueue (store (runTask now o t w)) = jobQueue (store w)
      /\ currentJob (store (runTask now o t w)) = currentJob (store w)
      /\ earnings (store (runTask now o t w)) = earnings (store w)
      /\ isRunning (store (runTask now o t w)) = isRunning (store w)
      /\ selectedGpu (store (runTask now o t w)) = selectedGpu (store w).
Proof.
  intros now o t job w Hjob Hns.
  assert (Hone : forall (wk : Wake) (t' : Task),
            isPipeline t' = true -> taskJob t' = Some job ->
            forall p, In p [(wk, t')] ->
                      isPipeline (snd p) = true /\ taskJob (snd p) = Some job)
    by (intros wk t' H1 H2 p [<- | []]; now split).
  destruct t as [ | | env j | env j steps i | env j steps i
                | env j steps i | env j | ]; cbn in Hjob; try discriminate;
    inversion Hjob; subst j; cbn [runTask].
  - unfold trainModel.
    set (w0 := playSound "train" (addLog now "Training model..." "info" w)).
    destruct (model env).
    + destruct (loopHead_successor now env job 10 0 w0)
        as (tail & Hp & Hlen & Ht & Hq & Hc & He & Hr & Hg).
      exists tail. rewrite Hp, Hq, Hc, He, Hr, Hg.
      split; [reflexivity | ]. split; [exact Hlen | ]. split; [exact Ht | ].
      repeat split.
    + eexists. split; [reflexivity | ]. split; [cbn; lia | ].
      split; [now apply Hone | repeat split].
  - apply loopHead_successor.
  - eexists. split; [reflexivity | ]. split; [cbn; lia | ].
    split; [now apply Hone | repeat split].
  - apply loopHead_successor.
  - exfalso. now apply (Hns env).
Qed.

Lemma countPipeline_le_length :
  forall l : list (Wake * Task), (countPipeline l <= List.length l)%nat.
Proof. intros l. unfold countPipeline. apply filter_length_le. Qed.

Lemma processJob_first_job :
  forall (now : string) (env : Env) (w : World),
    jobQueue env = [resnetJob; llamaJob] -> currentJob env = 0%nat ->
    processJob now env w =
    defer (Timer 1000) (BeginTraining env resnetJob)
          (playSound "bid"
             (addLog now "Processing job 1: Train ResNet-18 on CIFAR-10" "bid" w)).
Proof.
  intros now env w Hq Hc. unfold processJob. rewrite Hq, Hc. reflexivity.
Qed.

Lemma SingleJob_start :
  forall (now : string) (w : World),
    Inv w -> SingleJob w -> isRunning (store w) = false ->
    SingleJob (startSimulation now (store w) w).
Proof.
  intros now w HI [Hq Hn Hj Ho Hi Hu Hp Hg] Hoff.
  destruct (inv_idle w HI Hoff) as [Hz _].
  unfold startSimulation.
  rewrite (processJob_first_job now (store w) _ Hq (Hi Hoff)).
  constructor.
  - exact Hq.
  - intros p Hin. cbn [pending defer playSound addLog onStore] in Hin.
    apply in_app_or in Hin. destruct Hin as [Hin | [<- | []]]; auto.
  - intros p j Hin Hpj. cbn [pending defer playSound addLog onStore] in Hin.
    apply in_app_or in Hin. destruct Hin as [Hin | [<- | []]]; eauto.
    cbn in Hpj. congruence.
  - cbn [pending defer playSound addLog onStore].
    rewrite countPipeline_app, Hz. cbn. lia.
  - intros _. reflexivity.
  - intros _. reflexivity.
  - discriminate.
  - exact Hg.
Qed.

Lemma SingleJob_fire :
  forall (now : string) (o : Oracle) (k : nat) (wk : Wake) (t : Task) (w : World),
    Inv w -> SingleJob w -> nth_error (pending w) k = Some (wk, t) ->
    SingleJob (runTask now o t (unschedule k w)).
Proof.
  intros now o k wk t w HI HS Hnth.
  assert (Hin : In (wk, t) (pending w)) by (eapply nth_error_In; exact Hnth).
  pose proof (countPipeline_removeNth k _ _ Hnth) as Hc. cbn [snd] in Hc.
  assert (Hidle : forall f : State -> State,
            (forall s, jobQueue (f s) = jobQueue s) ->
            (forall s, currentJob (f s) = currentJob s) ->
            (forall s, earnings (f s) = earnings s) ->
            (forall s, isRunning (f s) = isRunning s) ->
            (forall s, selectedGpu (f s) = selectedGpu s) ->
            SingleJob (onStore f (unschedule k w))).
  { intros f F1 F2 F3 F4 F5. apply (SingleJob_frame w); [exact HS | | | | | | | ].
    - intros p. apply In_removeNth.
    - apply removeNth_count_le.
    - apply F1.
    - apply F2.
    - apply F3.
    - apply F4.
    - apply F5. }
  destruct (taskJob t) as [job | ] eqn:Hjob.
  - (* a pipeline task *)
    assert (Hpipe : isPipeline t = true) by (destruct t; (reflexivity || discriminate)).
    rewrite Hpipe in Hc.
    assert (Hres : job = resnetJob) by (exact (sj_job w HS (wk, t) job Hin Hjob)).
    assert (Hon : isRunning (store w) = true).
    { destruct (isRunning (store w)) eqn:E; [reflexivity | ].
      destruct (inv_idle w HI E) as [H0 _]. lia. }
    pose proof (sj_once w HS) as Honce.
    assert (Hcur : currentJob (store w) = 0%nat) by lia.
    assert (Hsettle : (exists env, t = SettleReward env job)
                      \/ (forall env, t <> SettleReward env job)).
    { destruct t; try (right; intros e He; discriminate He).
      left. cbn in Hjob. inversion Hjob. now exists env. }
    destruct Hsettle as [[env ->] | Hns].
    + (* the settlement *)
      destruct (inv_env w HI (wk, SettleReward env job) env Hin eq_refl)
        as [_ Hgpu].
      cbn [runTask]. constructor.
      * exact (sj_queue w HS).
      * intros p Hp. cbn [pending settle defer playSound addLog onStore unschedule] in Hp.
        apply in_app_or in Hp. destruct Hp as [Hp | [<- | []]]; [ | reflexivity].
        apply (sj_norefill w HS). now apply In_removeNth in Hp.
      * intros p j Hp Hpj.
        cbn [pending settle defer playSound addLog onStore unschedule] in Hp.
        apply in_app_or in Hp. destruct Hp as [Hp | [<- | []]]; [ | discriminate].
        apply (sj_job w HS p); [ | exact Hpj]. now apply In_removeNth in Hp.
      * change (S (currentJob (store w))
                + countPipeline (removeNth k (pending w) ++ [(Timer 3000, HideConfetti)])
                <= 1)%nat.
        rewrite countPipeline_app. cbn. lia.
      * intros H. change (isRunning (store w) = false) in H. congruence.
      * intros H. change (S (currentJob (store w)) = 0%nat) in H. discriminate.
      * intros _.
        change (Num.add (earnings (store w))
                        (Num.mul (Job.reward job) (Gpu.speed (selectedGpu env)))
                = Num.add (Num.ofZ 0)
                          (Num.mul (Job.reward resnetJob)
                                   (Gpu.speed (selectedGpu (store w))))).
        rewrite (sj_unpaid w HS Hcur), Hres, Hgpu. reflexivity.
      * exact (sj_gpu w HS).
    + (* any other pipeline task *)
      destruct (pipeline_successor now o t job (unschedule k w) Hjob Hns)
        as (tail & Hp & Hlen & Ht & Hq & Hcj & He & Hr & Hg).
      constructor.
      * rewrite Hq. exact (sj_queue w HS).
      * intros p Hin'. rewrite Hp in Hin'. apply in_app_or in Hin'.
        destruct Hin' as [Hin' | Hin'].
        -- apply (sj_norefill w HS). now apply In_removeNth in Hin'.
        -- destruct (Ht p Hin') as [Hpp _].
           destruct (snd p); (reflexivity || discriminate).
      * intros p j Hin' Hpj. rewrite Hp in Hin'. apply in_app_or in Hin'.
        destruct Hin' as [Hin' | Hin'].
        -- apply (sj_job w HS p); [ | exact Hpj]. now apply In_removeNth in Hin'.
        -- destruct (Ht p Hin') as [_ Hpj']. congruence.
      * pose proof (countPipeline_le_length tail) as Hcl.
        rewrite Hcj, Hp, countPipeline_app.
        change (currentJob (store (unschedule k w))) with (currentJob (store w)).
        change (pending (unschedule k w)) with (removeNth k (pending w)). lia.
      * rewrite Hr. intro H. change (isRunning (store w) = false) in H. congruence.
      * rewrite Hcj, He. exact (sj_unpaid w HS).
      * rewrite Hcj, He, Hg. exact (sj_paid w HS).
      * rewrite Hg. exact (sj_gpu w HS).
  - (* a task outside the pipeline *)
    destruct t; try discriminate Hjob; cbn [runTask].
    + apply Hidle; intros s; reflexivity.
    + pose proof (sj_norefill w HS _ Hin) as H. discriminate H.
    + apply Hidle; intros s; reflexivity.
Qed.

Lemma SingleJob_step :
  forall (now : string) (ev : Event) (w w' : World),
    Inv w -> SingleJob w -> step now ev w = Some w' -> SingleJob w'.
Proof.
  intros now ev w w' HI HS Hstep.
  destruct ev as [value | | | canShare | | k o]; cbn [step] in Hstep.
  - destruct (isRunning (store w)) eqn:E; [discriminate | ].
    destruct (find _ gpus) as [g | ] eqn:F; [ | discriminate].
    inversion Hstep; subst w'. apply find_some in F. destruct F as [Fin _].
    destruct HS as [Hq Hn Hj Ho Hi Hu Hp Hg].
    constructor; try assumption.
    intro H. change (currentJob (store w) = 1%nat) in H.
    rewrite (Hi E) in H. discriminate.
  - destruct (isRunning (store w)) eqn:E; [discriminate | ].
    inversion Hstep; subst w'. now apply SingleJob_start.
  - destruct (isRunning (store w)); [ | discriminate].
    inversion Hstep; subst w'.
    apply (SingleJob_frame w); auto; reflexivity.
  - destruct (isRunning (store w)); [ | discriminate].
    inversion Hstep; subst w'. unfold shareEarnings.
    destruct canShare; apply (SingleJob_frame w); auto; reflexivity.
  - destruct (isRunning (store w)); [ | discriminate].
    inversion Hstep; subst w'.
    apply (SingleJob_frame w); auto; reflexivity.
  - destruct (nth_error (pending w) k) as [[wk t] | ] eqn:E; [ | discriminate].
    destruct (validOracle o); [ | discriminate].
    inversion Hstep; subst w'. now apply (SingleJob_fire now o k wk t).
Qed.

Lemma reachable_SingleJob : forall w : World, reachable w -> SingleJob w.
Proof.
  induction 1 as [ | w now ev w' Hw IH Hstep].
  - exact SingleJob_initial.
  - exact (SingleJob_step now ev w w' (reachable_Inv w Hw) IH Hstep).
Qed.

(** The queue of a reachable world is the initial one: the refill timer is
    never armed, and every pipeline task works on the first catalog job. *)
Theorem queue_is_never_refilled :
  forall w : World,
    reachable w ->
    jobQueue (store w) = slice jobs 0 2
    /\ (forall (k : nat) (wk : Wake),
          nth_error (pending w) k <> Some (wk, RefillQueue))
    /\ (forall (k : nat) (wk : Wake) (t : Task) (job : Job.t),
          nth_error (pending w) k = Some (wk, t) -> taskJob t = Some job ->
          Job.name job = "Train ResNet-18 on CIFAR-10").
Proof.
  intros w Hw. pose proof (reachable_SingleJob w Hw) as HS.
  split; [exact (sj_queue w HS) | ]. split.
  - intros k wk Hnth. apply nth_error_In in Hnth.
    pose proof (sj_norefill w HS _ Hnth) as H. discriminate H.
  - intros k wk t job Hnth Hjob. apply nth_error_In in Hnth.
    rewrite (sj_job w HS _ job Hnth Hjob). reflexivity.
Qed.

Lemma queue_is_never_refilled_witness :
  jobQueue (store afterTrainingCall) = slice jobs 0 2.
Proof.
  apply (queue_is_never_refilled afterTrainingCall).
  apply (run_reachable readyScript initialWorld afterTrainingCall reach_init).
  vm_compute. reflexivity.
Defined.

(** The job index of a reachable world is 0 or 1, and once it is 1 no
    pipeline task is pending: a second job is never begun. *)
Theorem second_job_never_begins :
  forall w : World,
    reachable w ->
    (currentJob (store w) <= 1)%nat
    /\ (currentJob (store w) = 1%nat ->
        forall (k : nat) (wk : Wake) (t : Task),
          nth_error (pending w) k = Some (wk, t) -> isPipeline t = false).
Proof.
  intros w Hw. pose proof (sj_once w (reachable_SingleJob w Hw)) as H.
  split; [lia | ].
  intros H1 k wk t Hnth. apply nth_error_In in Hnth.
  apply (countPipeline_zero (pending w) (wk, t)); [lia | exact Hnth].
Qed.

Lemma second_job_never_begins_witness :
  currentJob (store settledWorld) = 1%nat
  /\ isPipeline HideConfetti = false.
Proof.
  split; [reflexivity | ].
  assert (Hreach : reachable settledWorld).
  { apply (run_reachable sessionScript initialWorld settledWorld reach_init).
    vm_compute. reflexivity. }
  apply (proj2 (second_job_never_begins settledWorld Hreach) eq_refl
               0%nat (Timer 3000) HideConfetti).
  reflexivity.
Defined.

Lemma session_earnings :
  forall w : World,
    reachable w ->
    (currentJob (store w) = 0%nat /\ earnings (store w) = Num.ofZ 0)
    \/ (currentJob (store w) = 1%nat
        /\ In (selectedGpu (store w)) gpus
        /\ earnings (store w) =
           Num.add (Num.ofZ 0)
                   (Num.mul (Num.lit 12 1) (Gpu.speed (selectedGpu (store w))))).
Proof.
  intros w Hw. pose proof (reachable_SingleJob w Hw) as HS.
  pose proof (sj_once w HS) as Honce.
  destruct (currentJob (store w)) as [ | [ | n]] eqn:E.
  - left. split; [reflexivity | ]. apply (sj_unpaid w HS). exact E.
  - right. split; [reflexivity | ]. split; [exact (sj_gpu w HS) | ].
    apply (sj_paid w HS). exact E.
  - lia.
Qed.

(** The accumulated reward of a reachable world is 0 until the one job is
    settled, and from then on the reward of the first catalog job on the
    selected device: nothing is ever added to it again. *)
Theorem earnings_of_a_session :
  forall w : World,
    reachable w ->
    (currentJob (store w) = 0%nat /\ earnings (store w) = Num.ofZ 0)
    \/ (currentJob (store w) = 1%nat
        /\ In (selectedGpu (store w)) gpus
        /\ earnings (store w) =
           Num.add (Num.ofZ 0)
                   (Num.mul (Num.lit 12 1) (Gpu.speed (selectedGpu (store w))))).
Proof. exact session_earnings. Qed.

Lemma earnings_of_a_session_witness :
  (currentJob (store settledWorld) = 0%nat
   /\ earnings (store settledWorld) = Num.ofZ 0)
  \/ (currentJob (store settledWorld) = 1%nat
      /\ In (selectedGpu (store settledWorld)) gpus
      /\ earnings (store settledWorld) =
         Num.add (Num.ofZ 0)
                 (Num.mul (Num.lit 12 1)
                          (Gpu.speed (selectedGpu (store settledWorld))))).
Proof.
  apply (earnings_of_a_session settledWorld).
  apply (run_reachable sessionScript initialWorld settledWorld reach_init).
  vm_compute. reflexivity.
Defined.

(** ** Once running *)

Lemma loopHead_session :
  forall (now : string) (env : Env) (job : Job.t) (steps i : Z) (w : World),
    isRunning (store (loopHead now env job steps i w)) = isRunning (store w)
    /\ selectedGpu (store (loopHead now env job steps i w)) = selectedGpu (store w)
    /\ currentJob (store (loopHead now env job steps i w)) = currentJob (store w)
    /\ isPaused (store (loopHead now env job steps i w)) = isPaused (store w).
Proof.
  intros now env job steps i w. unfold loopHead.
  destruct (i <? steps); [destruct (isPaused env) | ]; repeat split.
Qed.

(** No task touches the running flag, the paused flag or the device, and a
    task moves the job index by one at most. *)
Lemma runTask_session :
  forall (now : string) (o : Oracle) (t : Task) (w : World),
    isRunning (store (runTask now o t w)) = isRunning (store w)
    /\ selectedGpu (store (runTask now o t w)) = selectedGpu (store w)
    /\ isPaused (store (runTask now o t w)) = isPaused (store w)
    /\ (currentJob (store (runTask now o t w)) = currentJob (store w)
        \/ currentJob (store (runTask now o t w)) = S (currentJob (store w))).
Proof.
  intros now o t w.
  destruct t as [ | | env job | env job steps i | env job steps i
                | env job steps i | env job | ]; cbn [runTask];
    try (repeat split; left; reflexivity).
  - unfold trainModel.
    set (w0 := playSound "train" (addLog now "Training model..." "info" w)).
    destruct (model env).
    + destruct (loopHead_session now env job 10 0 w0) as (H1 & H2 & H3 & H4).
      rewrite H1, H2, H3, H4. repeat split. now left.
    + repeat split. now left.
  - destruct (loopHead_session now env job steps (i - 1 + 1) w) as (H1 & H2 & H3 & H4).
    rewrite H1, H2, H3, H4. repeat split. now left.
  - destruct (loopHead_session now env job steps (i + 1) w) as (H1 & H2 & H3 & H4).
    rewrite H1, H2, H3, H4. repeat split. now left.
  - repeat split. right. reflexivity.
Qed.

Lemma step_while_running :
  forall (now : string) (ev : Event) (w w' : World),
    step now ev w = Some w' ->
    isRunning (store w) = true ->
    isRunning (store w') = true
    /\ selectedGpu (store w') = selectedGpu (store w)
    /\ isStart ev = false
    /\ (forall value, ev <> Select value).
Proof.
  intros now ev w w' Hstep Hon.
  destruct ev as [value | | | canShare | | k o]; cbn [step] in Hstep;
    rewrite ?Hon in Hstep; try discriminate Hstep.
  - inversion Hstep; subst w'. repeat split; try assumption; discriminate.
  - inversion Hstep; subst w'. unfold shareEarnings.
    destruct canShare; repeat split; try assumption; discriminate.
  - inversion Hstep; subst w'. repeat split; try assumption; discriminate.
  - destruct (nth_error (pending w) k) as [[wk t] | ]; [ | discriminate].
    destruct (validOracle o); [ | discriminate].
    inversion Hstep; subst w'.
    destruct (runTask_session now o t (unschedule k w)) as (H1 & H2 & _).
    rewrite H1, H2. repeat split; try assumption; discriminate.
Qed.

(** Nothing clears the running flag, and while it is set the selected
    device cannot change: the selector and the start button are refused, and
    no handler or timer writes either cell. *)
Theorem running_is_permanent :
  forall (now : string) (ev : Event) (w w' : World),
    step now ev w = Some w' ->
    isRunning (store w) = true ->
    isRunning (store w') = true
    /\ selectedGpu (store w') = selectedGpu (store w)
    /\ isStart ev = false
    /\ (forall value, ev <> Select value).
Proof. exact step_while_running. Qed.

Lemma running_is_permanent_witness :
  isRunning (store pausedAfterCall) = true
  /\ selectedGpu (store pausedAfterCall) = selectedGpu (store afterTrainingCall).
Proof.
  pose proof (running_is_permanent "10:00:03" Pause afterTrainingCall pausedAfterCall)
    as H.
  destruct H as (H1 & H2 & _).
  - vm_compute. reflexivity.
  - reflexivity.
  - split; assumption.
Defined.

(** The number of start events of a script. *)
Definition starts (script : list (string * Event)) : nat :=
  List.length (filter (fun p => isStart (snd p)) script).

Lemma run_while_running :
  forall (script : list (string * Event)) (w w' : World),
    run script w = Some w' -> isRunning (store w) = true ->
    starts script = 0%nat /\ isRunning (store w') = true.
Proof.
  induction script as [ | [now ev] rest IH]; intros w w' Hrun Hon; cbn [run] in Hrun.
  - inversion Hrun; subst w'. now split.
  - destruct (step now ev w) as [w1 | ] eqn:E; [ | discriminate].
    destruct (step_while_running now ev w w1 E Hon) as (H1 & _ & H3 & _).
    destruct (IH w1 w' Hrun H1) as [Hs Hr]. split; [ | exact Hr].
    unfold starts in *. cbn. rewrite H3. exact Hs.
Qed.

(** A session can be started once: whatever the user does and whenever the
    timers fire, a script the page accepts holds at most one start, and
    after it the page is running for good. *)
Theorem at_most_one_start :
  forall (script : list (string * Event)) (w' : World),
    run script initialWorld = Some w' ->
    (starts script <= 1)%nat
    /\ (starts script = 1%nat -> isRunning (store w') = true).
Proof.
  intros script. generalize initialWorld.
  induction script as [ | [now ev] rest IH]; intros w w' Hrun; cbn [run] in Hrun.
  - split; [cbn; lia | discriminate].
  - destruct (step now ev w) as [w1 | ] eqn:E; [ | discriminate].
    destruct (isStart ev) eqn:Hev.
    + assert (Hon : isRunning (store w1) = true).
      { destruct ev; try discriminate Hev. cbn [step] in E.
        destruct (isRunning (store w)); [discriminate | ].
        inversion E; subst w1.
        apply (startSimulation_store now (store w) w). }
      destruct (run_while_running rest w1 w' Hrun Hon) as [H0 Hr].
      unfold starts in *. cbn. rewrite Hev. cbn. rewrite H0.
      split; [lia | intros _; exact Hr].
    + destruct (IH w1 w' Hrun) as [Hle Hr].
      unfold starts in *. cbn. rewrite Hev. split; assumption.
Qed.

Lemma at_most_one_start_witness : (starts sessionScript <= 1)%nat.
Proof.
  apply (at_most_one_start sessionScript settledWorld).
  vm_compute. reflexivity.
Defined.

Lemma step_currentJob :
  forall (now : string) (ev : Event) (w w' : World),
    step now ev w = Some w' -> isStart ev = false ->
    currentJob (store w') = currentJob (store w)
    \/ currentJob (store w') = S (currentJob (store w)).
Proof.
  intros now ev w w' Hstep Hev.
  destruct ev as [value | | | canShare | | k o]; cbn [step] in Hstep;
    try discriminate Hev.
  - destruct (isRunning (store w)); [discriminate | ].
    destruct (find _ gpus); [ | discriminate].
    inversion Hstep; subst w'. now left.
  - destruct (isRunning (store w)); [ | discriminate].
    inversion Hstep; subst w'. now left.
  - destruct (isRunning (store w)); [ | discriminate].
    inversion Hstep; subst w'. unfold shareEarnings. destruct canShare; now left.
  - destruct (isRunning (store w)); [ | discriminate].
    inversion Hstep; subst w'. now left.
  - destruct (nth_error (pending w) k) as [[wk t] | ]; [ | discriminate].
    destruct (validOracle o); [ | discriminate].
    inversion Hstep; subst w'.
    exact (proj2 (proj2 (proj2 (runTask_session now o t (unschedule k w))))).
Qed.

(** The reward the first job pays on a catalog device is positive. *)
Lemma first_reward_positive :
  forall g : Gpu.t,
    In g gpus ->
    let r := Num.add (Num.ofZ 0) (Num.mul (Num.lit 12 1) (Gpu.speed g)) in
    Num.leb (Num.ofZ 0) r = true /\ Num.leb r r = true.
Proof.
  intros g Hg. cbn in Hg.
  destruct Hg as [<- | [<- | [<- | [<- | [<- | []]]]]];
    vm_compute; split; reflexivity.
Qed.

(** Within a run the accumulated reward never goes down: only the start
    button writes a smaller total. *)
Theorem earnings_never_decrease :
  forall (now : string) (ev : Event) (w w' : World),
    reachable w ->
    step now ev w = Some w' ->
    isStart ev = false ->
    Num.leb (earnings (store w)) (earnings (store w')) = true.
Proof.
  intros now ev w w' Hw Hstep Hev.
  pose proof (reachable_SingleJob w Hw) as HS.
  pose proof (reachable_SingleJob w' (reach_step w now ev w' Hw Hstep)) as HS'.
  pose proof (sj_once w' HS') as Honce'.
  destruct (step_currentJob now ev w w' Hstep Hev) as [Hc | Hc].
  - destruct (currentJob (store w)) as [ | [ | n]] eqn:E.
    + rewrite (sj_unpaid w HS E), (sj_unpaid w' HS' Hc). reflexivity.
    + assert (Hon : isRunning (store w) = true).
      { destruct (isRunning (store w)) eqn:R; [reflexivity | ].
        pose proof (sj_idle w HS R). congruence. }
      destruct (step_while_running now ev w w' Hstep Hon) as (_ & Hg & _).
      rewrite (sj_paid w HS E), (sj_paid w' HS' Hc), Hg.
      apply (first_reward_positive (selectedGpu (store w))). exact (sj_gpu w HS).
    + lia.
  - assert (E : currentJob (store w) = 0%nat) by lia.
    rewrite E in Hc.
    rewrite (sj_unpaid w HS E), (sj_paid w' HS' Hc).
    apply (first_reward_positive (selectedGpu (store w'))). exact (sj_gpu w' HS').
Qed.

Lemma earnings_never_decrease_witness :
  Num.leb (earnings (store beforeSettlement)) (earnings (store settledWorld)) = true.
Proof.
  apply (earnings_never_decrease "10:00:04"
           (Fire 0 (lateStartEarlyEnd None))
           beforeSettlement settledWorld).
  - apply (run_reachable provingScript initialWorld beforeSettlement reach_init).
    vm_compute. reflexivity.
  - vm_compute. reflexivity.
  - reflexivity.
Defined.

(** ** The training loop as a whole *)

Lemma stepEntries_app :
  forall l1 l2, stepEntries (l1 ++ l2) = stepEntries l1 ++ stepEntries l2.
Proof. intros l1 l2. unfold stepEntries. apply filter_app. Qed.

(** The training callback of a run that captured a model: its own entry and
    tone, then the training call raises. *)
Lemma training_callback_raises :
  forall (now : string) (o : Oracle) (env : Env) (job : Job.t)
         (m : LayersModel) (w : World),
    model env = Some m -> isPaused env = false ->
    runTask now o (BeginTraining env job) w
    = playSound "train" (addLog now "Training model..." "info" w).
Proof.
  intros now o env job m w Hm Hp. cbn [runTask]. unfold trainModel. rewrite Hm.
  apply (unpaused_closure_raises now env job 10 0 _ Hp). lia.
Qed.

(** A running page without a pipeline task stays so, and keeps its job
    index and its accumulated reward. *)
Lemma idle_pipeline_step :
  forall (now : string) (ev : Event) (w w' : World),
    isRunning (store w) = true ->
    countPipeline (pending w) = 0%nat ->
    step now ev w = Some w' ->
    isRunning (store w') = true
    /\ countPipeline (pending w') = 0%nat
    /\ currentJob (store w') = currentJob (store w)
    /\ earnings (store w') = earnings (store w).
Proof.
  intros now ev w w' Hon Hz Hstep.
  destruct ev as [value | | | canShare | | k o]; cbn [step] in Hstep;
    rewrite ?Hon in Hstep; try discriminate Hstep.
  - injection Hstep as <-. now repeat split.
  - injection Hstep as <-. unfold shareEarnings.
    destruct canShare; now repeat split.
  - injection Hstep as <-. now repeat split.
  - destruct (nth_error (pending w) k) as [[wk t] | ] eqn:E; [ | discriminate].
    destruct (validOracle o); [ | discriminate].
    injection Hstep as <-.
    pose proof (countPipeline_zero _ (wk, t) Hz (nth_error_In _ _ E)) as Ht.
    pose proof (removeNth_count_le k (pending w)) as Hle.
    cbn [snd] in Ht.
    destruct t; try discriminate Ht; cbn [runTask];
      (split; [exact Hon | ]); (split; [ | now split]);
      cbn [pending onStore unschedule]; lia.
Qed.

Lemma idle_pipeline_run :
  forall (script : list (string * Event)) (w w' : World),
    isRunning (store w) = true ->
    countPipeline (pending w) = 0%nat ->
    run script w = Some w' ->
    countPipeline (pending w') = 0%nat
    /\ currentJob (store w') = currentJob (store w)
    /\ earnings (store w') = earnings (store w).
Proof.
  induction script as [ | [now ev] rest IH]; intros w w' Hon Hz Hrun;
    cbn [run] in Hrun.
  - injection Hrun as <-. now repeat split.
  - destruct (step now ev w) as [w1 | ] eqn:E; [ | discriminate].
    destruct (idle_pipeline_step now ev w w1 Hon Hz E) as (H1 & H2 & H3 & H4).
    destruct (IH w1 w' H1 H2 Hrun) as (Ha & Hb & Hc).
    split; [exact Ha | ]. split; congruence.
Qed.

(** A run that was started with the model in place never pays.  Its
    training callback raises at the first training call, which ends the
    pipeline: whatever happens afterwards, no pipeline task is pending any
    more, the settlement is never armed, and job index and accumulated
    reward stay 0. *)
Theorem run_with_a_model_never_pays :
  forall (script : list (string * Event)) (w w' w'' : World) (now : string)
         (k : nat) (o : Oracle) (wk : Wake) (env : Env) (job : Job.t)
         (m : LayersModel),
    reachable w ->
    nth_error (pending w) k = Some (wk, BeginTraining env job) ->
    model env = Some m ->
    step now (Fire k o) w = Some w' ->
    run script w' = Some w'' ->
    countPipeline (pending w'') = 0%nat
    /\ currentJob (store w'') = 0%nat
    /\ earnings (store w'') = Num.ofZ 0
    /\ stepEntries (logs (store w')) = stepEntries (logs (store w)).
Proof.
  intros script w w' w'' now k o wk env job m Hw Hnth Hm Hstep Hrun.
  pose proof (reachable_Inv w Hw) as HI.
  pose proof (reachable_SingleJob w Hw) as HS.
  assert (Hin : In (wk, BeginTraining env job) (pending w))
    by (eapply nth_error_In; exact Hnth).
  destruct (inv_env w HI _ env Hin eq_refl) as [Hunp _].
  pose proof (countPipeline_removeNth k _ _ Hnth) as Hc. cbn in Hc.
  pose proof (inv_single w HI) as Hone.
  pose proof (sj_once w HS) as Honce.
  assert (Hon : isRunning (store w) = true).
  { destruct (isRunning (store w)) eqn:R; [reflexivity | ].
    destruct (inv_idle w HI R) as [H0 _]. lia. }
  cbn [step] in Hstep. rewrite Hnth in Hstep.
  destruct (validOracle o); [ | discriminate].
  rewrite (training_callback_raises now o env job m _ Hm Hunp) in Hstep.
  injection Hstep as <-.
  set (w1 := playSound "train"
               (addLog now "Training model..." "info" (unschedule k w))) in *.
  assert (H1 : isRunning (store w1) = true) by exact Hon.
  assert (H2 : countPipeline (pending w1) = 0%nat).
  { change (countPipeline (removeNth k (pending w)) = 0%nat). lia. }
  destruct (idle_pipeline_run script w1 w'' H1 H2 Hrun) as (Ha & Hb & Hd).
  assert (Hcur : currentJob (store w) = 0%nat) by lia.
  split; [exact Ha | ]. split; [exact (eq_trans Hb Hcur) | ].
  split.
  - rewrite Hd. exact (sj_unpaid w HS Hcur).
  - change (logs (store w1))
      with (logs (store w) ++ [logEntry now "Training model..." "info"]).
    rewrite stepEntries_app. apply app_nil_r.
Qed.

Lemma run_with_a_model_never_pays_witness :
  earnings (store pausedAfterCall) = Num.ofZ 0
  /\ countPipeline (pending pausedAfterCall) = 0%nat.
Proof.
  assert (Hreach : reachable readyToTrain).
  { apply (run_reachable [ ("10:00:00", Fire 0 (lateStartEarlyEnd None));
                           ("10:00:01", Start) ] initialWorld readyToTrain
                         reach_init).
    vm_compute. reflexivity. }
  pose proof (run_with_a_model_never_pays [("10:00:03", Pause)]
                readyToTrain afterTrainingCall pausedAfterCall "10:00:02"
                0%nat (lateStartEarlyEnd None) (Timer 1000) runEnv resnetJob
                sequentialModel Hreach) as H.
  destruct H as (Hc & _ & He & _).
  - vm_compute. reflexivity.
  - reflexivity.
  - vm_compute. reflexivity.
  - vm_compute. reflexivity.
  - split; assumption.
Defined.

(** The events that are possible while a run is on. *)
Definition whileRunning (ev : Event) : bool :=
  match ev with
  | Pause | Share _ | Sound | Fire _ _ => true
  | Select _ | Start => false
  end.

(** A loop whose closure captured a set paused flag never resumes: whatever
    the user presses afterwards, the pause button included, and however
    often its 100 ms timer fires, the same wait stays pending and neither
    the progress nor the step entries change. *)
Theorem captured_pause_never_resumes :
  forall (script : list (string * Event)) (env : Env) (job : Job.t)
         (steps i : Z) (w w' : World),
    isPaused env = true ->
    i < steps ->
    pending w = [(Timer 100, AfterPauseWait env job steps i)] ->
    Forall (fun p => whileRunning (snd p) = true) script ->
    run script w = Some w' ->
    pending w' = [(Timer 100, AfterPauseWait env job steps i)]
    /\ progress (store w') = progress (store w)
    /\ stepEntries (logs (store w')) = stepEntries (logs (store w)).
Proof.
  induction script as [ | [now ev] rest IH];
    intros env job steps i w w' Hp Hi Hw Hall Hrun; cbn [run] in Hrun.
  - inversion Hrun; subst w'. now repeat split.
  - destruct (step now ev w) as [w1 | ] eqn:E; [ | discriminate].
    inversion Hall as [ | x l Hev Hrest]; subst. cbn [snd] in Hev.
    assert (H1 : pending w1 = [(Timer 100, AfterPauseWait env job steps i)]
                 /\ progress (store w1) = progress (store w)
                 /\ stepEntries (logs (store w1)) = stepEntries (logs (store w))).
    { destruct ev as [value | | | canShare | | k o]; cbn [step] in E;
        try discriminate Hev.
      - destruct (isRunning (store w)); [ | discriminate].
        inversion E; subst w1. split; [exact Hw | ]. split; [reflexivity | ].
        change (logs (store (togglePause now (store w) w)))
          with (logs (store w)
                ++ [logEntry now (if isPaused (store w) then "Node resumed"
                                  else "Node paused") "info"]).
        rewrite stepEntries_app. apply app_nil_r.
      - destruct (isRunning (store w)); [ | discriminate].
        inversion E; subst w1. unfold shareEarnings.
        destruct canShare; (split; [exact Hw | ]); (split; [reflexivity | ]).
        + reflexivity.
        + match goal with
          | |- stepEntries (logs (store (addLog ?n ?m ?t ?x))) = _ =>
              change (logs (store (addLog n m t x)))
                with (logs (store w) ++ [logEntry n m t])
          end.
          rewrite stepEntries_app. apply app_nil_r.
      - destruct (isRunning (store w)); [ | discriminate].
        inversion E; subst w1. now repeat split.
      - rewrite Hw in E. destruct k as [ | k]; cbn [nth_error] in E.
        + destruct (validOracle o); [ | discriminate].
          rewrite (paused_closure_retries now o env job steps i _ Hp Hi) in E.
          inversion E; subst w1.
          cbn [pending defer unschedule store]. rewrite Hw. now repeat split.
        + destruct k; discriminate E. }
    destruct H1 as (Hw1 & Hp1 & Hl1).
    destruct (IH env job steps i w1 w' Hp Hi Hw1 Hrest Hrun) as (Ha & Hb & Hc).
    split; [exact Ha | ]. split; congruence.
Qed.

(** A run whose closure has captured a set paused flag. *)
Definition pausedEnv : Env := setIsPaused true (setIsRunning true runEnv).

Definition waitingOnPause : World :=
  mkWorld pausedEnv [(Timer 100, AfterPauseWait pausedEnv resnetJob 10 0)]
          [] None [].

Definition resumeScript : list (string * Event) :=
  [ ("10:00:05", Fire 0 (lateStartEarlyEnd None));
    ("10:00:06", Pause);
    ("10:00:07", Fire 0 (lateStartEarlyEnd None)) ].

Definition afterResume : World :=
  Eval vm_compute in
    match run resumeScript waitingOnPause with
    | Some w => w
    | None => waitingOnPause
    end.

Lemma captured_pause_never_resumes_witness :
  isPaused (store afterResume) = false
  /\ pending afterResume = [(Timer 100, AfterPauseWait pausedEnv resnetJob 10 0)].
Proof.
  split; [reflexivity | ].
  apply (captured_pause_never_resumes resumeScript pausedEnv resnetJob 10 0
           waitingOnPause afterResume).
  - reflexivity.
  - lia.
  - reflexivity.
  - repeat constructor.
  - vm_compute. reflexivity.
Defined.

(** ** The pause button *)

(** Pressing the pause button twice puts the paused flag back, logs the two
    changes in order, and touches nothing else of the session. *)
Theorem pause_twice_restores_flag :
  forall (now1 now2 : string) (w w1 w2 : World),
    step now1 Pause w = Some w1 ->
    step now2 Pause w1 = Some w2 ->
    isPaused (store w1) = negb (isPaused (store w))
    /\ isPaused (store w2) = isPaused (store w)
    /\ logs (store w2) =
       logs (store w)
       ++ [logEntry now1 (if isPaused (store w) then "Node resumed"
                          else "Node paused") "info";
           logEntry now2 (if isPaused (store w) then "Node paused"
                          else "Node resumed") "info"]
    /\ pending w2 = pending w
    /\ progress (store w2) = progress (store w)
    /\ earnings (store w2) = earnings (store w)
    /\ currentJob (store w2) = currentJob (store w).
Proof.
  intros now1 now2 w w1 w2 H1 H2. cbn [step] in H1.
  destruct (isRunning (store w)) eqn:R; [ | discriminate].
  inversion H1; subst w1. clear H1.
  cbn [step] in H2.
  change (isRunning (store (togglePause now1 (store w) w)))
    with (isRunning (store w)) in H2.
  rewrite R in H2. inversion H2; subst w2. clear H2.
  split; [reflexivity | ].
  split.
  { change (negb (negb (isPaused (store w))) = isPaused (store w)).
    apply negb_involutive. }
  split; [ | repeat split].
  transitivity ((logs (store w)
                 ++ [logEntry now1 (if isPaused (store w) then "Node resumed"
                                    else "Node paused") "info"])
                ++ [logEntry now2 (if negb (isPaused (store w)) then "Node resumed"
                                   else "Node paused") "info"]);
    [reflexivity | ].
  rewrite <- app_assoc. cbn [app].
  destruct (isPaused (store w)); reflexivity.
Qed.

Lemma pause_twice_restores_flag_witness :
  isPaused (store (togglePause "10:00:04" (store pausedAfterCall)
                               pausedAfterCall))
  = isPaused (store afterTrainingCall).
Proof.
  apply (pause_twice_restores_flag "10:00:03" "10:00:04" afterTrainingCall
           pausedAfterCall
           (togglePause "10:00:04" (store pausedAfterCall) pausedAfterCall)).
  - vm_compute. reflexivity.
  - vm_compute. reflexivity.
Defined.

(** ** The refill *)

(** Whatever the two random draws are, the refill keeps every queued job
    at its index and appends a run of consecutive catalog jobs, in catalog
    order and four at most. *)
Theorem refill_appends_a_catalog_run :
  forall (o : Oracle) (prev : list Job.t),
    exists before extra after,
      jobs = before ++ extra ++ after
      /\ refill o prev = prev ++ extra
      /\ (List.length extra <= 4)%nat
      /\ (forall k : nat, (k < List.length prev)%nat ->
                          nth_error (refill o prev) k = nth_error prev k).
Proof.
  intros o prev. unfold refill, slice.
  set (len := Z.of_nat (List.length jobs)).
  set (a := Num.truncZ (Num.mul (random1 o) (Num.ofZ len))).
  set (b := Num.truncZ (Num.add (Num.mul (random2 o) (Num.ofZ len)) (Num.ofZ 1))).
  set (k := Z.to_nat (if a <? 0 then Z.max (len + a) 0 else Z.min a len)).
  set (n := Z.to_nat ((if b <? 0 then Z.max (len + b) 0 else Z.min b len)
                      - (if a <? 0 then Z.max (len + a) 0 else Z.min a len))).
  exists (firstn k jobs), (firstn n (skipn k jobs)), (skipn n (skipn k jobs)).
  split; [now rewrite !firstn_skipn | ].
  split; [reflexivity | ].
  split.
  - rewrite length_firstn, length_skipn.
    change (List.length jobs) with 4%nat. lia.
  - intros j Hj. now apply nth_error_app1.
Qed.

(** ** Device speed *)

(** The wait between two training steps on a device: [300 / speed] ms. *)
Definition stepWait (g : Gpu.t) : Z :=
  Num.truncZ (Num.div (Num.ofZ 300) (Gpu.speed g)).

(** Of two catalog devices the faster one waits a shorter time between
    training steps and is paid more for the same catalog job. *)
Theorem faster_device_waits_less_and_earns_more :
  forall (g1 g2 : Gpu.t) (j : Job.t),
    In g1 gpus -> In g2 gpus -> In j jobs ->
    Num.ltb (Gpu.speed g1) (Gpu.speed g2) = true ->
    stepWait g2 < stepWait g1
    /\ Num.ltb (Num.mul (Job.reward j) (Gpu.speed g1))
               (Num.mul (Job.reward j) (Gpu.speed g2)) = true
    /\ forall (now : string) (env : Env) (job : Job.t) (steps i : Z)
              (l : option Num.number) (w : World),
         pending (afterTrain now (setSelectedGpu g1 env) job steps i l w)
         = pending w
           ++ [(Timer (stepWait g1),
                AfterStepWait (setSelectedGpu g1 env) job steps i)].
Proof.
  intros g1 g2 j H1 H2 Hj Hlt.
  split; [ | split; [ | reflexivity]].
  - cbn in H1, H2.
    destruct H1 as [<- | [<- | [<- | [<- | [<- | []]]]]];
      destruct H2 as [<- | [<- | [<- | [<- | [<- | []]]]]];
      first [ vm_compute in Hlt; discriminate Hlt | vm_compute; reflexivity ].
  - cbn in H1, H2, Hj.
    destruct H1 as [<- | [<- | [<- | [<- | [<- | []]]]]];
      destruct H2 as [<- | [<- | [<- | [<- | [<- | []]]]]];
      first [ vm_compute in Hlt; discriminate Hlt
            | destruct Hj as [<- | [<- | [<- | [<- | []]]]];
              vm_compute; reflexivity ].
Qed.

Lemma faster_device_waits_less_and_earns_more_witness :
  stepWait h100 < stepWait m2MacBook
  /\ Num.ltb (Num.mul (Job.reward llamaJob) (Gpu.speed m2MacBook))
             (Num.mul (Job.reward llamaJob) (Gpu.speed h100)) = true.
Proof.
  pose proof (faster_device_waits_less_and_earns_more m2MacBook h100 llamaJob)
    as H.
  destruct H as (Ha & Hb & _).
  - cbn. tauto.
  - cbn. tauto.
  - cbn. tauto.
  - vm_compute. reflexivity.
  - split; assumption.
Defined.

(** ** The device selector *)

Lemma find_by_name :
  forall g : Gpu.t,
    In g gpus ->
    find (fun x => String.eqb (Gpu.name x) (Gpu.name g)) gpus = Some g.
Proof.
  intros g Hg. cbn in Hg.
  destruct Hg as [<- | [<- | [<- | [<- | [<- | []]]]]]; vm_compute; reflexivity.
Qed.

(** While the page is idle, choosing the name of a catalog device selects
    that very device and changes nothing else; whatever name is accepted
    selects a catalog device of that name; and while running every choice is
    refused. *)
Theorem select_by_name :
  forall (now : string) (g : Gpu.t) (w : World),
    In g gpus ->
    isRunning (store w) = false ->
    step now (Select (Gpu.name g)) w = Some (onStore (setSelectedGpu g) w)
    /\ selectedGpu (store (onStore (setSelectedGpu g) w)) = g
    /\ logs (store (onStore (setSelectedGpu g) w)) = logs (store w)
    /\ pending (onStore (setSelectedGpu g) w) = pending w
    /\ (forall (value : string) (w' : World),
          step now (Select value) w = Some w' ->
          In (selectedGpu (store w')) gpus
          /\ Gpu.name (selectedGpu (store w')) = value)
    /\ (forall value : string,
          step now (Select value) (onStore (setIsRunning true) w) = None).
Proof.
  intros now g w Hg Hoff.
  split.
  { cbn [step]. now rewrite Hoff, (find_by_name g Hg). }
  split; [reflexivity | ]. split; [reflexivity | ]. split; [reflexivity | ].
  split; [ | reflexivity].
  intros value w' Hstep. cbn [step] in Hstep. rewrite Hoff in Hstep.
  destruct (find (fun x => String.eqb (Gpu.name x) value) gpus) as [g' | ] eqn:F;
    [ | discriminate].
  inversion Hstep; subst w'. apply find_some in F. destruct F as [Hin Heq].
  apply String.eqb_eq in Heq. split; assumption.
Qed.

Lemma select_by_name_witness :
  step "09:59:59" (Select "H100") initialWorld
  = Some (onStore (setSelectedGpu h100) initialWorld).
Proof.
  apply (select_by_name "09:59:59" h100 initialWorld).
  - cbn. tauto.
  - reflexivity.
Defined.

(** ** Sharing *)

(** The text handed to the share sheet or the clipboard. *)
Definition shareText (amount : string) : string :=
  "Just earned " +++ amount
  +++ " $SY running a GenSyn node in my browser! Try it: https://gensynplayground.vercel.app/ #GenSyn #dePIN".

(** The amounts a page can ever report: nothing, or the first job's reward
    on one of the five devices. *)
Definition shareAmounts : list string :=
  ["0.00"; "1.08"; "1.44"; "0.96"; "0.84"; "0.36"].

Lemma reported_amount :
  forall w : World,
    reachable w -> In (Num.toFixed 2 (earnings (store w))) shareAmounts.
Proof.
  intros w Hw.
  destruct (session_earnings w Hw) as [[_ He] | (_ & Hg & He)]; rewrite He.
  - left. reflexivity.
  - cbn in Hg.
    destruct Hg as [<- | [<- | [<- | [<- | [<- | []]]]]]; vm_compute; tauto.
Qed.

(** Sharing reports one of six amounts and leaves the session alone: with
    the native share sheet the text goes there and nothing is logged; without
    it the text goes to the clipboard and one info entry confirms it. *)
Theorem share_reports_the_total :
  forall (now : string) (canShare : bool) (w w' : World),
    reachable w ->
    step now (Share canShare) w = Some w' ->
    let text := shareText (Num.toFixed 2 (earnings (store w))) in
    In (Num.toFixed 2 (earnings (store w))) shareAmounts
    /\ (if canShare
        then shared w' = shared w ++ [text]
             /\ clipboard w' = clipboard w
             /\ logs (store w') = logs (store w)
        else shared w' = shared w
             /\ clipboard w' = Some text
             /\ logs (store w')
                = logs (store w) ++ [logEntry now "Share text copied!" "info"])
    /\ earnings (store w') = earnings (store w)
    /\ progress (store w') = progress (store w)
    /\ pending w' = pending w
    /\ audio w' = audio w.
Proof.
  intros now canShare w w' Hw Hstep text.
  split; [exact (reported_amount w Hw) | ].
  cbn [step] in Hstep.
  destruct (isRunning (store w)); [ | discriminate].
  assert (E : w' = shareEarnings now (store w) canShare w) by congruence.
  rewrite E. unfold shareEarnings. subst text.
  destruct canShare; repeat split.
Qed.

Lemma share_reports_the_total_witness :
  clipboard (shareEarnings "10:00:07" (store settledWorld) false settledWorld)
  = Some (shareText "1.08").
Proof.
  pose proof (share_reports_the_total "10:00:07" false settledWorld
                (shareEarnings "10:00:07" (store settledWorld) false settledWorld))
    as H.
  destruct H as (_ & (_ & Hc & _) & _).
  - apply (run_reachable sessionScript initialWorld settledWorld reach_init).
    vm_compute. reflexivity.
  - vm_compute. reflexivity.
  - rewrite Hc. vm_compute. reflexivity.
Defined.

(** ** What the page shows of the queue *)

(** [job.name.split(" ")[0]] *)
Fixpoint firstWord (s : string) : string :=
  match s with
  | EmptyString => EmptyString
  | String c r => if Ascii.eqb c " " then EmptyString else String c (firstWord r)
  end.

(** The queue preview: one tile per job of [jobQueue.slice(currentJob)],
    keyed by the job's id and labelled with the first word of its name. *)
Definition queuePreview (s : State) : list (Z * string) :=
  map (fun job => (Job.id job, firstWord (Job.name job)))
      (slice (jobQueue s) (Z.of_nat (currentJob s))
             (Z.of_nat (List.length (jobQueue s)))).

(** The counter of the status line: [Job {currentJob + 1}/{jobQueue.length}]. *)
Definition jobCounter (s : State) : string :=
  "Job " +++ Num.showZ (Z.of_nat (currentJob s) + 1) +++ "/"
  +++ Num.showZ (Z.of_nat (List.length (jobQueue s))).

(** The page shows one of two queue views: "Job 1/2" with both initial jobs
    ahead, or, once the first is settled, "Job 2/2" with the second job
    ahead.  The tiles have distinct keys, the preview is never empty and the
    counter never passes the length of the queue. *)
Theorem queue_view :
  forall w : World,
    reachable w ->
    (jobCounter (store w) = "Job 1/2"
     /\ queuePreview (store w) = [(1, "Train"); (2, "Fine-tune")])
    \/ (jobCounter (store w) = "Job 2/2"
        /\ queuePreview (store w) = [(2, "Fine-tune")]).
Proof.
  intros w Hw. pose proof (reachable_SingleJob w Hw) as HS.
  pose proof (sj_once w HS) as Honce.
  unfold jobCounter, queuePreview. rewrite (sj_queue w HS).
  destruct (currentJob (store w)) as [ | [ | n]] eqn:E.
  - left. split; vm_compute; reflexivity.
  - right. split; vm_compute; reflexivity.
  - lia.
Qed.

Lemma queue_view_witness :
  (jobCounter (store settledWorld) = "Job 1/2"
   /\ queuePreview (store settledWorld) = [(1, "Train"); (2, "Fine-tune")])
  \/ (jobCounter (store settledWorld) = "Job 2/2"
      /\ queuePreview (store settledWorld) = [(2, "Fine-tune")]).
Proof.
  apply (queue_view settledWorld).
  apply (run_reachable sessionScript initialWorld settledWorld reach_init).
  vm_compute. reflexivity.
Defined.

(** ** Confetti and the model *)

Definition isHide (t : Task) : bool :=
  match t with HideConfetti => true | _ => false end.

Definition isSettle (t : Task) : bool :=
  match t with SettleReward _ _ => true | _ => false end.

Definition isInit (t : Task) : bool :=
  match t with InitModel => true | _ => false end.

Definition countTasks (f : Task -> bool) (l : list (Wake * Task)) : nat :=
  List.length (filter (fun p => f (snd p)) l).

Lemma countTasks_app :
  forall f l1 l2, countTasks f (l1 ++ l2) = (countTasks f l1 + countTasks f l2)%nat.
Proof. intros f l1 l2. unfold countTasks. now rewrite filter_app, length_app. Qed.

Lemma countTasks_removeNth :
  forall (f : Task -> bool) (k : nat) (l : list (Wake * Task)) (p : Wake * Task),
    nth_error l k = Some p ->
    countTasks f l = (countTasks f (removeNth k l) + (if f (snd p) then 1 else 0))%nat.
Proof.
  intros f k l. revert k.
  induction l as [ | a l IH]; intros k p H; [destruct k; discriminate | ].
  destruct k as [ | k]; cbn in H.
  - inversion H; subst. unfold countTasks. cbn. destruct (f (snd p)); cbn; lia.
  - specialize (IH k p H). unfold countTasks in *. cbn.
    destruct (f (snd a)); cbn; lia.
Qed.

Lemma countTasks_positive :
  forall (f : Task -> bool) (l : list (Wake * Task)),
    (0 < countTasks f l)%nat <->
    exists k wk t, nth_error l k = Some (wk, t) /\ f t = true.
Proof.
  intros f l. unfold countTasks. split.
  - intro H.
    destruct (filter (fun p => f (snd p)) l) as [ | [wk t] r] eqn:E;
      [cbn in H; lia | ].
    assert (Hin : In (wk, t) (filter (fun p => f (snd p)) l))
      by (rewrite E; now left).
    apply filter_In in Hin. destruct Hin as [Hin Hf].
    apply In_nth_error in Hin. destruct Hin as [k Hk]. now exists k, wk, t.
  - intros (k & wk & t & Hk & Hf).
    assert (Hin : In (wk, t) (filter (fun p => f (snd p)) l)).
    { apply filter_In. split; [eapply nth_error_In; exact Hk | exact Hf]. }
    destruct (filter (fun p => f (snd p)) l); [destruct Hin | cbn; lia].
Qed.

Lemma loopHead_tail :
  forall (now : string) (env : Env) (job : Job.t) (steps i : Z) (w : World),
    exists tail,
      pending (loopHead now env job steps i w) = pending w ++ tail
      /\ countTasks isHide tail = 0%nat /\ countTasks isInit tail = 0%nat
      /\ showConfetti (store (loopHead now env job steps i w)) = showConfetti (store w)
      /\ model (store (loopHead now env job steps i w)) = model (store w).
Proof.
  intros now env job steps i w. unfold loopHead.
  destruct (i <? steps);
    [destruct (isPaused env); [ | destruct (hasMethod "train")] | ].
  - eexists. split; [reflexivity | ]. repeat split.
  - eexists. split; [reflexivity | ]. repeat split.
  - exists []. rewrite app_nil_r. repeat split.
  - eexists. split; [reflexivity | ]. repeat split.
Qed.

(** What a task leaves in the task list, the confetti flag and the model. *)
Lemma runTask_tail :
  forall (now : string) (o : Oracle) (t : Task) (w : World),
    exists tail,
      pending (runTask now o t w) = pending w ++ tail
      /\ countTasks isHide tail = (if isSettle t then 1 else 0)%nat
      /\ countTasks isInit tail = 0%nat
      /\ showConfetti (store (runTask now o t w))
         = (if isSettle t then true
            else if isHide t then false else showConfetti (store w))
      /\ model (store (runTask now o t w))
         = (if isInit t then Some sequentialModel else model (store w)).
Proof.
  intros now o t w.
  assert (Hloop : forall env job steps i w0,
            showConfetti (store w0) = showConfetti (store w) ->
            model (store w0) = model (store w) ->
            pending w0 = pending w ->
            exists tail,
              pending (loopHead now env job steps i w0) = pending w ++ tail
              /\ countTasks isHide tail = 0%nat
              /\ countTasks isInit tail = 0%nat
              /\ showConfetti (store (loopHead now env job steps i w0))
                 = showConfetti (store w)
              /\ model (store (loopHead now env job steps i w0)) = model (store w)).
  { intros env job steps i w0 Hc Hm Hp.
    destruct (loopHead_tail now env job steps i w0)
      as (tail & Hp' & Hh & Hi & Hc' & Hm').
    exists tail. rewrite Hp', Hp, Hc', Hc, Hm', Hm. repeat split; assumption. }
  destruct t as [ | | env job | env job steps i | env job steps i
                | env job steps i | env job | ]; cbn [runTask isSettle isHide isInit].
  - exists []. rewrite app_nil_r. repeat split.
  - exists []. rewrite app_nil_r. repeat split.
  - unfold trainModel.
    set (w0 := playSound "train" (addLog now "Training model..." "info" w)).
    destruct (model env).
    + apply Hloop; reflexivity.
    + eexists. split; [reflexivity | ]. repeat split.
  - apply Hloop; reflexivity.
  - eexists. split; [reflexivity | ]. repeat split.
  - apply Hloop; reflexivity.
  - eexists. split; [reflexivity | ]. repeat split.
  - exists []. rewrite app_nil_r. repeat split.
Qed.

Record Decor (w : World) : Prop := mkDecor
  { dc_hide : countTasks isHide (pending w)
              = (if showConfetti (store w) then 1 else 0)%nat;
    dc_settled : showConfetti (store w) = true -> currentJob (store w) = 1%nat;
    dc_init : countTasks isInit (pending w)
              = match model (store w) with None => 1 | Some _ => 0 end%nat;
    dc_model : model (store w) = None \/ model (store w) = Some sequentialModel }.

Lemma Decor_frame :
  forall w w' : World,
    Decor w ->
    pending w' = pending w ->
    showConfetti (store w') = showConfetti (store w) ->
    model (store w') = model (store w) ->
    currentJob (store w') = currentJob (store w) ->
    Decor w'.
Proof.
  intros w w' [H1 H2 H3 H4] Hp Hc Hm Hj.
  constructor; rewrite ?Hp, ?Hc, ?Hm, ?Hj; assumption.
Qed.

Lemma Decor_step :
  forall (now : string) (ev : Event) (w w' : World),
    reachable w -> Decor w -> step now ev w = Some w' -> Decor w'.
Proof.
  intros now ev w w' Hw HD Hstep.
  pose proof (reachable_SingleJob w Hw) as HS.
  pose proof (reachable_SingleJob w' (reach_step w now ev w' Hw Hstep)) as HS'.
  pose proof (sj_once w' HS') as Honce'.
  destruct ev as [value | | | canShare | | k o]; cbn [step] in Hstep.
  - destruct (isRunning (store w)); [discriminate | ].
    destruct (find _ gpus) as [g | ]; [ | discriminate].
    assert (E : w' = onStore (setSelectedGpu g) w) by congruence.
    rewrite E. apply (Decor_frame w); auto.
  - destruct (isRunning (store w)) eqn:R; [discriminate | ].
    assert (E : w' = startSimulation now (store w) w) by congruence.
    pose proof (sj_idle w HS R) as Hcur.
    assert (Hshape : w' = defer (Timer 1000) (BeginTraining (store w) resnetJob)
                           (playSound "bid"
                              (addLog now "Processing job 1: Train ResNet-18 on CIFAR-10" "bid"
                                 (addLog now
                                    ("Node started on " +++ Gpu.name (selectedGpu (store w))
                                     +++ " (" +++ Num.showZ (Gpu.power (selectedGpu (store w)))
                                     +++ "W)") "info"
                                    (onStore (setProgress (Num.ofZ 0))
                                       (onStore (setCurrentJob (fun _ => 0%nat))
                                          (onStore (setLogs (fun _ => []))
                                             (onStore (setEarnings (fun _ => Num.ofZ 0))
                                                (onStore (setIsRunning true) w))))))))).
    { rewrite E. unfold startSimulation.
      now rewrite (processJob_first_job now (store w) _ (sj_queue w HS) Hcur). }
    clear E. rewrite Hshape. destruct HD as [H1 H2 H3 H4].
    constructor.
    + cbn [pending defer playSound addLog onStore].
      rewrite countTasks_app. unfold countTasks at 2. cbn.
      rewrite H1.
      match goal with |- (_ + 0)%nat = ?r =>
        change r with (if showConfetti (store w) then 1 else 0)%nat end.
      lia.
    + intros Hc. change (showConfetti (store w) = true) in Hc.
      specialize (H2 Hc). congruence.
    + cbn [pending defer playSound addLog onStore].
      rewrite countTasks_app. unfold countTasks at 2. cbn.
      rewrite H3.
      match goal with |- (_ + 0)%nat = ?r =>
        change r with (match model (store w) with None => 1 | Some _ => 0 end)%nat end.
      lia.
    + exact H4.
  - destruct (isRunning (store w)); [ | discriminate].
    assert (E : w' = togglePause now (store w) w) by congruence.
    rewrite E. apply (Decor_frame w); auto.
  - destruct (isRunning (store w)); [ | discriminate].
    assert (E : w' = shareEarnings now (store w) canShare w) by congruence.
    rewrite E. unfold shareEarnings.
    destruct canShare; apply (Decor_frame w); auto.
  - destruct (isRunning (store w)); [ | discriminate].
    assert (E : w' = playSound "earn" w) by congruence.
    rewrite E. apply (Decor_frame w); auto.
  - destruct (nth_error (pending w) k) as [[wk t] | ] eqn:Hnth; [ | discriminate].
    destruct (validOracle o); [ | discriminate].
    assert (E : w' = runTask now o t (unschedule k w)) by congruence.
    clear Hstep.
    destruct (runTask_tail now o t (unschedule k w))
      as (tail & Hp & Hh & Hi & Hc & Hm).
    rewrite <- E in Hp, Hc, Hm.
    change (pending (unschedule k w)) with (removeNth k (pending w)) in Hp.
    change (showConfetti (store (unschedule k w))) with (showConfetti (store w)) in Hc.
    change (model (store (unschedule k w))) with (model (store w)) in Hm.
    pose proof (countTasks_removeNth isHide k _ _ Hnth) as Ch.
    pose proof (countTasks_removeNth isInit k _ _ Hnth) as Ci.
    cbn [snd] in Ch, Ci.
    destruct (runTask_session now o t (unschedule k w)) as (_ & _ & _ & Hcj).
    rewrite <- E in Hcj.
    change (currentJob (store (unschedule k w))) with (currentJob (store w)) in Hcj.
    destruct HD as [H1 H2 H3 H4].
    assert (Hset : isSettle t = true ->
                   showConfetti (store w) = false
                   /\ currentJob (store w') = 1%nat).
    { intro Hst. destruct t; try discriminate Hst.
      pose proof (countPipeline_removeNth k _ _ Hnth) as Cp. cbn in Cp.
      pose proof (sj_once w HS) as Honce.
      assert (Hcur : currentJob (store w) = 0%nat) by lia.
      split.
      - destruct (showConfetti (store w)); [ | reflexivity].
        specialize (H2 eq_refl). congruence.
      - rewrite E. cbn [runTask].
        change (S (currentJob (store w)) = 1%nat). now rewrite Hcur. }
    constructor.
    + rewrite Hp, countTasks_app, Hh, Hc.
      destruct (isSettle t) eqn:Hst.
      * destruct (Hset eq_refl) as [Hoff _]. rewrite Hoff in H1.
        assert (isHide t = false) by (destruct t; (reflexivity || discriminate)).
        rewrite H in Ch. lia.
      * destruct (isHide t) eqn:Hhd.
        -- destruct (showConfetti (store w)); lia.
        -- rewrite <- H1. lia.
    + rewrite Hc. intro Hon.
      destruct (isSettle t) eqn:Hst; [exact (proj2 (Hset eq_refl)) | ].
      destruct (isHide t); [discriminate | ].
      specialize (H2 Hon). destruct Hcj as [Hcj | Hcj]; lia.
    + rewrite Hp, countTasks_app, Hi, Hm.
      destruct (isInit t) eqn:Hin.
      * destruct (model (store w)); lia.
      * rewrite <- H3. lia.
    + rewrite Hm. destruct (isInit t); [now right | exact H4].
Qed.

Lemma reachable_Decor : forall w : World, reachable w -> Decor w.
Proof.
  induction 1 as [ | w now ev w' Hw IH Hstep].
  - constructor; cbn; (reflexivity || discriminate || now left).
  - exact (Decor_step now ev w w' Hw IH Hstep).
Qed.

(** The confetti is shown exactly while its 3000 ms timer is pending, and
    of that timer there is never more than one: every burst is taken down,
    and only by its own timer. *)
Theorem confetti_follows_its_timer :
  forall w : World,
    reachable w ->
    (showConfetti (store w) = true <->
     exists (k : nat) (wk : Wake), nth_error (pending w) k = Some (wk, HideConfetti))
    /\ (countTasks isHide (pending w) <= 1)%nat
    /\ (showConfetti (store w) = true -> currentJob (store w) = 1%nat).
Proof.
  intros w Hw. destruct (reachable_Decor w Hw) as [H1 H2 _ _].
  split; [ | split; [destruct (showConfetti (store w)); lia | exact H2]].
  split.
  - intro Hon. rewrite Hon in H1.
    assert (Hpos : (0 < countTasks isHide (pending w))%nat) by lia.
    apply countTasks_positive in Hpos.
    destruct Hpos as (k & wk & t & Hk & Ht).
    destruct t; try discriminate Ht. now exists k, wk.
  - intros (k & wk & Hk).
    assert (Hpos : (0 < countTasks isHide (pending w))%nat)
      by (apply countTasks_positive; now exists k, wk, HideConfetti).
    destruct (showConfetti (store w)); [reflexivity | lia].
Qed.

Lemma confetti_follows_its_timer_witness :
  showConfetti (store settledWorld) = true
  /\ (countTasks isHide (pending settledWorld) <= 1)%nat.
Proof.
  assert (Hreach : reachable settledWorld).
  { apply (run_reachable sessionScript initialWorld settledWorld reach_init).
    vm_compute. reflexivity. }
  destruct (confetti_follows_its_timer settledWorld Hreach) as (Hiff & Hle & _).
  split; [ | exact Hle].
  apply (proj2 Hiff). exists 0%nat, (Timer 3000). reflexivity.
Defined.

(** The model is created once: it is missing exactly while the mount effect
    is pending, and once created it is never replaced or dropped. *)
Theorem model_is_created_once :
  forall w : World,
    reachable w ->
    (model (store w) = None /\ countTasks isInit (pending w) = 1%nat)
    \/ (model (store w) = Some sequentialModel
        /\ countTasks isInit (pending w) = 0%nat).
Proof.
  intros w Hw. destruct (reachable_Decor w Hw) as [_ _ H3 H4].
  destruct H4 as [H4 | H4]; rewrite H4 in H3; [left | right]; now split.
Qed.

Lemma model_is_created_once_witness :
  (model (store settledWorld) = None
   /\ countTasks isInit (pending settledWorld) = 1%nat)
  \/ (model (store settledWorld) = Some sequentialModel
      /\ countTasks isInit (pending settledWorld) = 0%nat).
Proof.
  apply (model_is_created_once settledWorld).
  apply (run_reachable sessionScript initialWorld settledWorld reach_init).
  vm_compute. reflexivity.
Defined.
